(** * Discord gateway watchdog: a shallow embedding of [GatewayWatchdog]

    The class [GatewayWatchdog] ("Discord Gateway Watchdog") watches a gateway
    handle for silence and forces a reconnect.  It is stateful TypeScript: it
    mutates its own fields, the shared gateway object, an event emitter's
    listener list and the host's timers.  The embedding threads one explicit
    [World] through every method: the watchdog's fields, the shared gateway
    object, the host clock, the host's timer tables, and two recordings
    ([ops], [logs]) of what the watchdog did to the handle and what it
    logged.

    Conventions.
    - Millisecond quantities ([Date.now()], the options) are [Z]; the source
      uses JS numbers and only adds, subtracts and compares them.
    - [consecutiveStale] starts at 0 and is only incremented or set to 0, so
      it is an [N].
    - An optional property ([state?], [sequence?], [emitter?], the options)
      is an [option]; [None] is "property absent".  A nullable value is an
      [option] whose [None] is [null].
    - A method body runs at one instant: every [Date.now()] inside one call
      reads the same [clock], and the clock only moves forward ([Elapse]).
    - [gateway.disconnect()] and [gateway.connect(r)] belong to the transport.
      They are recorded in [ops]; what the transport then does to the handle
      is an event of its own ([TransportStatus], [TransportSession]).  The
      calls are taken to return normally and not to emit synchronously. *)

From Stdlib Require Import ZArith NArith List Bool Ascii String Lia PeanoNat.
From Stdlib Require Import DecimalString.
Import ListNotations.
Local Open Scope string_scope.
Local Open Scope list_scope.
Local Open Scope Z_scope.

(** ** How a constructor call completes *)

Inductive completion (A : Type) : Type :=
| Returned (a : A)
| Thrown (err : string).

Arguments Returned {A} a.
Arguments Thrown {A} err.

(** ** The gateway handle *)

(** [gateway.state]: the session identity the transport resumes with. *)
Record SessionState : Type := mkSession {
  sessionId : option string;
  resumeGatewayUrl : option string;
  sequence : option Z
}.

(** A node [EventEmitter], restricted to what is registered on it by the
    watchdog: registrations in the order [on] was called, each an event name
    and the identity of the listener closure. *)
Definition EventEmitter : Type := list (string * nat).

Definition registered (name : string) (l : nat) (r : string * nat) : bool :=
  (fst r =? name)%string && Nat.eqb (snd r) l.

Definition emitter_on (name : string) (l : nat) (em : EventEmitter) : EventEmitter :=
  em ++ [(name, l)].

(** [removeListener] drops one registration of that listener under that name,
    the most recently added one. *)
Fixpoint emitter_removeListener (name : string) (l : nat) (em : EventEmitter)
  : EventEmitter :=
  match em with
  | [] => []
  | r :: rest =>
      if existsb (registered name l) rest
      then r :: emitter_removeListener name l rest
      else if registered name l r then rest else r :: rest
  end.

Definition emitter_listeners (name : string) (em : EventEmitter) : list nat :=
  map snd (filter (fun r => (fst r =? name)%string) em).

Record Gateway : Type := mkGateway {
  isConnected : bool;
  gw_state : option SessionState;      (* state?: {...} *)
  gw_sequence : option (option Z);     (* sequence?: number | null *)
  emitter : option EventEmitter        (* emitter?: EventEmitter *)
}.

(** What the watchdog does to the handle, in program order. *)
Inductive GatewayOp : Type :=
| OpSetSessionId (v : option string)          (* gateway.state.sessionId = v *)
| OpSetResumeGatewayUrl (v : option string)   (* gateway.state.resumeGatewayUrl = v *)
| OpSetStateSequence (v : option Z)           (* gateway.state.sequence = v *)
| OpSetSequence (v : option Z)                (* gateway.sequence = v *)
| OpDisconnect                                (* gateway.disconnect() *)
| OpConnect (resume : bool).                  (* gateway.connect(resume) *)

(** ** Options *)

(** [GatewayWatchdogOpts], the part that is data.  [gateway] and [runtime] are
    references to shared objects and live in the [World]. *)
Record GatewayWatchdogOpts : Type := mkOpts {
  o_checkIntervalMs : option Z;
  o_staleThresholdMs : option Z;
  o_maxStaleBeforeFreshConnect : option Z;
  o_abortSignal : bool                  (* was an abortSignal supplied? *)
}.

(** [Required<Pick<..., the three numbers>> & GatewayWatchdogOpts]. *)
Record ResolvedOpts : Type := mkResolved {
  checkIntervalMs : Z;
  staleThresholdMs : Z;
  maxStaleBeforeFreshConnect : Z;
  abortSignal : bool
}.

Definition present {A : Type} (o : option A) : bool :=
  match o with Some _ => true | None => false end.

Definition from_option {A : Type} (d : A) (o : option A) : A :=
  match o with Some a => a | None => d end.

(** [{ checkIntervalMs: 60_000, staleThresholdMs: 120_000,
       maxStaleBeforeFreshConnect: 3, ...opts }] *)
Definition spread_defaults (o : GatewayWatchdogOpts) : ResolvedOpts :=
  {| checkIntervalMs := from_option 60000 (o_checkIntervalMs o);
     staleThresholdMs := from_option 120000 (o_staleThresholdMs o);
     maxStaleBeforeFreshConnect := from_option 3 (o_maxStaleBeforeFreshConnect o);
     abortSignal := o_abortSignal o |}.

(** ** The watchdog object *)

Record GatewayWatchdog : Type := mkWatchdog {
  lastEventAt : Z;
  consecutiveStale : N;
  checkTimer : option nat;       (* handle returned by setInterval *)
  eventListener : option nat;    (* identity of the listener closure *)
  opts : ResolvedOpts
}.

(** The object a [constructor(opts)] call leaves behind when [Date.now()] is
    [now]: the two field initialisers, then the spread into [this.opts]. *)
Definition constructed (o : GatewayWatchdogOpts) (now : Z) : GatewayWatchdog :=
  {| lastEventAt := now;
     consecutiveStale := 0%N;
     checkTimer := None;
     eventListener := None;
     opts := spread_defaults o |}.

(** [new GatewayWatchdog(opts)].  The constructor body is the one assignment
    above; nothing in it inspects the values or throws. *)
Definition new_GatewayWatchdog (o : GatewayWatchdogOpts) (now : Z)
  : completion GatewayWatchdog :=
  Returned (constructed o now).

(** ** The host: clock, timers, log *)

(** A pending [setTimeout(() => gateway.connect(resume), delay)]. *)
Record Timeout : Type := mkTimeout {
  t_due : Z;
  t_delay : Z;
  t_resume : bool
}.

(** Arguments of [runtime.log?.(...)], before formatting. *)
Inductive LogLine : Type :=
| LogStarted
| LogWaiting (secs : Z)
| LogFresh (secs : Z) (checks : N)
| LogResume (secs : Z) (attempt : N) (max : Z).

Record World : Type := mkWorld {
  clock : Z;                        (* Date.now() *)
  wd : GatewayWatchdog;             (* this *)
  gateway : Gateway;                (* this.opts.gateway, shared *)
  aborted : bool;                   (* abortSignal.aborted *)
  intervals : list (nat * Z);       (* active setInterval timers: handle, period *)
  timeouts : list Timeout;          (* pending setTimeout callbacks, oldest first *)
  next_id : nat;                    (* next fresh handle / closure identity *)
  ops : list GatewayOp;             (* what was done to the handle, oldest first *)
  logs : list LogLine
}.

Definition Date_now (w : World) : Z := clock w.

(** [Math.round(silentMs / 1000)]: nearest integer, halves go up. *)
Definition round_secs (silentMs : Z) : Z := (silentMs + 500) / 1000.

(** *** Field updates *)

Definition with_wd (f : GatewayWatchdog -> GatewayWatchdog) (w : World) : World :=
  mkWorld (clock w) (f (wd w)) (gateway w) (aborted w) (intervals w)
          (timeouts w) (next_id w) (ops w) (logs w).

Definition with_gateway (f : Gateway -> Gateway) (w : World) : World :=
  mkWorld (clock w) (wd w) (f (gateway w)) (aborted w) (intervals w)
          (timeouts w) (next_id w) (ops w) (logs w).

Definition set_lastEventAt (t : Z) : World -> World :=
  with_wd (fun g => mkWatchdog t (consecutiveStale g) (checkTimer g)
                                (eventListener g) (opts g)).

Definition set_consecutiveStale (n : N) : World -> World :=
  with_wd (fun g => mkWatchdog (lastEventAt g) n (checkTimer g)
                                (eventListener g) (opts g)).

Definition set_checkTimer (t : option nat) : World -> World :=
  with_wd (fun g => mkWatchdog (lastEventAt g) (consecutiveStale g) t
                                (eventListener g) (opts g)).

Definition set_eventListener (l : option nat) : World -> World :=
  with_wd (fun g => mkWatchdog (lastEventAt g) (consecutiveStale g)
                                (checkTimer g) l (opts g)).

Definition set_emitter (em : option EventEmitter) : World -> World :=
  with_gateway (fun g => mkGateway (isConnected g) (gw_state g) (gw_sequence g) em).

Definition set_isConnected (b : bool) : World -> World :=
  with_gateway (fun g => mkGateway b (gw_state g) (gw_sequence g) (emitter g)).

Definition set_gw_state (s : option SessionState) : World -> World :=
  with_gateway (fun g => mkGateway (isConnected g) s (gw_sequence g) (emitter g)).

Definition set_gw_sequence (s : option (option Z)) : World -> World :=
  with_gateway (fun g => mkGateway (isConnected g) (gw_state g) s (emitter g)).

Definition record_ops (l : list GatewayOp) (w : World) : World :=
  mkWorld (clock w) (wd w) (gateway w) (aborted w) (intervals w)
          (timeouts w) (next_id w) (ops w ++ l) (logs w).

Definition runtime_log (m : LogLine) (w : World) : World :=
  mkWorld (clock w) (wd w) (gateway w) (aborted w) (intervals w)
          (timeouts w) (next_id w) (ops w) (logs w ++ [m]).

Definition fresh_id (w : World) : World :=
  mkWorld (clock w) (wd w) (gateway w) (aborted w) (intervals w)
          (timeouts w) (S (next_id w)) (ops w) (logs w).

(** *** Host timers *)

Definition setInterval (period : Z) (w : World) : nat * World :=
  let id := next_id w in
  (id, fresh_id (mkWorld (clock w) (wd w) (gateway w) (aborted w)
                         (intervals w ++ [(id, period)])
                         (timeouts w) (next_id w) (ops w) (logs w))).

Definition clearInterval (id : nat) (w : World) : World :=
  mkWorld (clock w) (wd w) (gateway w) (aborted w)
          (filter (fun i => negb (Nat.eqb (fst i) id)) (intervals w))
          (timeouts w) (next_id w) (ops w) (logs w).

(** [setTimeout(() => { gateway.connect(resume); }, delay)] *)
Definition setTimeout_connect (resume : bool) (delay : Z) (w : World) : World :=
  mkWorld (clock w) (wd w) (gateway w) (aborted w) (intervals w)
          (timeouts w ++ [mkTimeout (clock w + delay) delay resume])
          (next_id w) (ops w) (logs w).

Definition set_timeouts (ts : list Timeout) (w : World) : World :=
  mkWorld (clock w) (wd w) (gateway w) (aborted w) (intervals w)
          ts (next_id w) (ops w) (logs w).

Definition interval_active (id : nat) (w : World) : bool :=
  existsb (fun i => Nat.eqb (fst i) id) (intervals w).

(** *** Calls on the handle *)

Definition gateway_disconnect : World -> World := record_ops [OpDisconnect].
Definition gateway_connect (resume : bool) : World -> World :=
  record_ops [OpConnect resume].

(** [if (gateway.state) { gateway.state.sessionId = null;
      gateway.state.resumeGatewayUrl = null; gateway.state.sequence = null; }] *)
Definition clear_state (w : World) : World :=
  match gw_state (gateway w) with
  | Some _ =>
      record_ops [OpSetSessionId None; OpSetResumeGatewayUrl None;
                  OpSetStateSequence None]
                 (set_gw_state (Some (mkSession None None None)) w)
  | None => w
  end.

(** [if ("sequence" in gateway) { gateway.sequence = null; }] *)
Definition clear_sequence (w : World) : World :=
  match gw_sequence (gateway w) with
  | Some _ => record_ops [OpSetSequence None] (set_gw_sequence (Some None) w)
  | None => w
  end.

(** ** Methods of [GatewayWatchdog] *)

(** The closure bound to [this.eventListener] in [start]:
    [() => { this.lastEventAt = Date.now(); this.consecutiveStale = 0; }] *)
Definition recordSignal (w : World) : World :=
  set_consecutiveStale 0%N (set_lastEventAt (Date_now w) w).

Definition SETTLE_DELAY : Z := 1000.

(** [private check(): void] *)
Definition check (w : World) : World :=
  let o := opts (wd w) in
  let silentMs := Date_now w - lastEventAt (wd w) in
  if silentMs <? staleThresholdMs o then
    (* Connection is healthy *)
    w
  else
    let w := set_consecutiveStale (N.succ (consecutiveStale (wd w))) w in
    if negb (isConnected (gateway w)) then
      (* Already disconnected, the library's own reconnect should handle it *)
      runtime_log (LogWaiting (round_secs silentMs)) w
    else if maxStaleBeforeFreshConnect o <=? Z.of_N (consecutiveStale (wd w)) then
      (* Too many stale cycles: force a fresh connect *)
      let w := runtime_log (LogFresh (round_secs silentMs)
                                     (consecutiveStale (wd w))) w in
      let w := clear_state w in
      let w := clear_sequence w in
      let w := gateway_disconnect w in
      let w := setTimeout_connect false SETTLE_DELAY w in
      let w := set_consecutiveStale 0%N w in
      set_lastEventAt (Date_now w) w
    else
      (* First stale detection: try resume first *)
      let w := runtime_log (LogResume (round_secs silentMs)
                                      (consecutiveStale (wd w))
                                      (maxStaleBeforeFreshConnect o)) w in
      let w := gateway_disconnect w in
      let w := setTimeout_connect true SETTLE_DELAY w in
      set_lastEventAt (Date_now w) w.

(** [stop(): void] *)
Definition stop (w : World) : World :=
  let w :=
    match checkTimer (wd w) with
    | Some t => set_checkTimer None (clearInterval t w)
    | None => w
    end in
  match eventListener (wd w), emitter (gateway w) with
  | Some l, Some em =>
      let em := emitter_removeListener "debug" l em in
      let em := emitter_removeListener "metrics" l em in
      set_eventListener None (set_emitter (Some em) w)
  | _, _ => w
  end.

(** The callback handed to [setInterval] in [start]:
    [() => { if (abortSignal?.aborted) { this.stop(); return; } this.check(); }] *)
Definition interval_callback (w : World) : World :=
  if abortSignal (opts (wd w)) && aborted w then stop w else check w.

(** [start(): void].  [unref()] on the timer has no effect on anything the
    model observes. *)
Definition start (w : World) : World :=
  let w :=
    match emitter (gateway w) with
    | Some em =>
        let l := next_id w in
        let w := fresh_id (set_eventListener (Some l) w) in
        let em := emitter_on "debug" l em in
        let em := emitter_on "metrics" l em in
        set_emitter (Some em) w
    | None => w
    end in
  let (t, w) := setInterval (checkIntervalMs (opts (wd w))) w in
  let w := set_checkTimer (Some t) w in
  runtime_log LogStarted w.

(** ** The host's event loop *)

(** [emitter.emit(name)]: every listener registered under [name] runs, in
    registration order.  Each registration made by the watchdog carries the
    [recordSignal] closure. *)
Definition emit (name : string) (w : World) : World :=
  match emitter (gateway w) with
  | Some em => fold_left (fun w _ => recordSignal w) (emitter_listeners name em) w
  | None => w
  end.

Definition drop_nth {A : Type} (n : nat) (l : list A) : list A :=
  firstn n l ++ skipn (S n) l.

(** The [n]-th pending timeout runs, if it exists and its delay has passed. *)
Definition fire_timeout (n : nat) (w : World) : World :=
  match nth_error (timeouts w) n with
  | Some t =>
      if t_due t <=? clock w
      then gateway_connect (t_resume t) (set_timeouts (drop_nth n (timeouts w)) w)
      else w
  | None => w
  end.

Inductive Event : Type :=
| CallStart                                   (* watchdog.start() *)
| CallStop                                    (* watchdog.stop() *)
| Emit (name : string)                        (* gateway.emitter.emit(name, ...) *)
| Elapse (dt : N)                             (* time passes *)
| IntervalFires (id : nat)                    (* the host runs an interval callback *)
| TimeoutFires (n : nat)                      (* the host runs a due timeout *)
| TransportStatus (b : bool)                  (* the transport flips isConnected *)
| TransportSession (s : option SessionState)  (* the transport stores a session *)
| AbortSignalled.                             (* abortSignal fires *)

Definition set_clock (t : Z) (w : World) : World :=
  mkWorld t (wd w) (gateway w) (aborted w) (intervals w)
          (timeouts w) (next_id w) (ops w) (logs w).

Definition set_aborted (b : bool) (w : World) : World :=
  mkWorld (clock w) (wd w) (gateway w) b (intervals w)
          (timeouts w) (next_id w) (ops w) (logs w).

(** An active interval may fire at any moment: the cadence is the host's, and
    every host schedule is one of these runs. *)
Definition step (ev : Event) (w : World) : World :=
  match ev with
  | CallStart => start w
  | CallStop => stop w
  | Emit name => emit name w
  | Elapse dt => set_clock (clock w + Z.of_N dt) w
  | IntervalFires id => if interval_active id w then interval_callback w else w
  | TimeoutFires n => fire_timeout n w
  | TransportStatus b => set_isConnected b w
  | TransportSession s => set_gw_state s w
  | AbortSignalled => set_aborted true w
  end.

Definition run (evs : list Event) (w : World) : World :=
  fold_left (fun w ev => step ev w) evs w.

(** The world right after [new GatewayWatchdog(opts)] returned. *)
Definition boot (o : GatewayWatchdogOpts) (g : Gateway) (now : Z) : World :=
  mkWorld now (constructed o now) g false [] [] 0%nat [] [].

(** ** Vocabulary of the statements *)

(** The first guard of [check], negated: the silence has reached the threshold. *)
Definition is_stale (w : World) : bool :=
  negb (Date_now w - lastEventAt (wd w) <? staleThresholdMs (opts (wd w))).

(** The session writes the fresh branch issues on a given handle. *)
Definition null_writes (g : Gateway) : list GatewayOp :=
  (if present (gw_state g)
   then [OpSetSessionId None; OpSetResumeGatewayUrl None; OpSetStateSequence None]
   else [])
  ++ (if present (gw_sequence g) then [OpSetSequence None] else []).

(** The branch [check] takes, read off its guards in source order. *)
Inductive Decision : Type :=
| Healthy
| WaitForExternalReconnect
| ResumeReconnect
| FreshReconnect.

Definition evaluate (w : World) : Decision :=
  if negb (is_stale w) then Healthy
  else if negb (isConnected (gateway w)) then WaitForExternalReconnect
  else if maxStaleBeforeFreshConnect (opts (wd w))
          <=? Z.of_N (N.succ (consecutiveStale (wd w)))
       then FreshReconnect
       else ResumeReconnect.

(** Does the host event [ev], arriving in world [w], run [check]? *)
Definition runs_check (ev : Event) (w : World) : bool :=
  match ev with
  | IntervalFires id =>
      interval_active id w && negb (abortSignal (opts (wd w)) && aborted w)
  | _ => false
  end.

(** Does [ev] deliver a liveness signal to the watchdog's handler? *)
Definition records_signal (ev : Event) (w : World) : bool :=
  match ev, emitter (gateway w) with
  | Emit name, Some em => negb (Nat.eqb (List.length (emitter_listeners name em)) 0)
  | _, _ => false
  end.

(** The two occasions on which the counter goes back to 0. *)
Definition resets_counter (ev : Event) (w : World) : bool :=
  records_signal ev w ||
  (runs_check ev w &&
   match evaluate w with FreshReconnect => true | _ => false end).

(** [start()] is never called on a watchdog whose timer is still set. *)
Definition is_running (w : World) : bool := present (checkTimer (wd w)).

Fixpoint starts_only_when_stopped (evs : list Event) (w : World) : bool :=
  match evs with
  | [] => true
  | ev :: rest =>
      match ev with CallStart => negb (is_running w) | _ => true end
      && starts_only_when_stopped rest (step ev w)
  end.

(** Everything except a new [start()]. *)
Definition is_external (ev : Event) : bool :=
  match ev with CallStart => false | _ => true end.

(** What [start] registers for one listener closure. *)
Definition registrations (l : option nat) : EventEmitter :=
  match l with
  | Some l => [("debug", l); ("metrics", l)]
  | None => []
  end.

Definition handle_of (t : option nat) : list nat :=
  match t with Some t => [t] | None => [] end.

(** The watchdog still holds every timer and listener it installed. *)
Definition tracked (w : World) : Prop :=
  map fst (intervals w) = handle_of (checkTimer (wd w)) /\
  match emitter (gateway w) with
  | Some em =>
      em = registrations (eventListener (wd w)) /\
      (checkTimer (wd w) = None -> eventListener (wd w) = None)
  | None => True
  end.

(** Nothing is installed: no interval is active, no listener is registered,
    and the watchdog holds no handle. *)
Definition quiet (w : World) : Prop :=
  intervals w = [] /\
  checkTimer (wd w) = None /\
  match emitter (gateway w) with
  | Some em => em = [] /\ eventListener (wd w) = None
  | None => True
  end.

(** A call made by a timeout that was already pending in [pending]. *)
Definition late_connect (pending : list Timeout) (op : GatewayOp) : Prop :=
  exists t, In t pending /\ op = OpConnect (t_resume t).

(** *** Concrete handles and worlds used in the examples *)

Definition demo_session : SessionState :=
  mkSession (Some "sess-1") (Some "wss://resume.example") (Some 42).

Definition demo_gateway (connected : bool) : Gateway :=
  mkGateway connected (Some demo_session) (Some (Some 42)) (Some []).

Definition default_opts : GatewayWatchdogOpts := mkOpts None None None false.

(** A started watchdog on a disconnected handle, two minutes of silence in. *)
Definition silent_disconnected : World :=
  run [CallStart; Elapse 120000] (boot default_opts (demo_gateway false) 0).

(** A started watchdog on a connected handle whose first stale check has just
    called [disconnect()] and queued the settle-delay [connect(true)]. *)
Definition mid_reconnect : World :=
  run [CallStart; Elapse 120000; IntervalFires 1]
      (boot default_opts (demo_gateway true) 0).

(** A connected handle two minutes silent, no stale check counted yet. *)
Definition first_stale : World :=
  run [CallStart; Elapse 120000] (boot default_opts (demo_gateway true) 0).

(** A connected handle two minutes silent again after two resume attempts. *)
Definition third_stale : World :=
  run [CallStart; Elapse 120000; IntervalFires 1;
       Elapse 120000; IntervalFires 1; Elapse 120000]
      (boot default_opts (demo_gateway true) 0).

Definition nonpositive_opts : GatewayWatchdogOpts :=
  mkOpts (Some 0) (Some (-5)) None false.

(** *** The statements that fail on the code, as they are worded *)

(** C3 as worded: a stale check on a disconnected handle calls nothing and
    leaves the counter where it was. *)
Definition disconnected_check_leaves_counter (w : World) : Prop :=
  staleThresholdMs (opts (wd w)) <= Date_now w - lastEventAt (wd w) ->
  isConnected (gateway w) = false ->
  ops (check w) = ops w /\
  timeouts (check w) = timeouts w /\
  consecutiveStale (wd (check w)) = consecutiveStale (wd w).

(** C4 as worded: once [stop()] has returned on [w], no run of later events
    (anything but a new [start()]) changes the watchdog or touches the
    handle. *)
Definition stop_is_terminal (w : World) (later : list Event) : Prop :=
  forallb is_external later = true ->
  let w1 := stop w in
  let w2 := run later w1 in
  wd w2 = wd w1 /\ ops w2 = ops w1.

(** C8 as worded: a non-positive [checkIntervalMs] or [staleThresholdMs] makes
    the constructor signal an error. *)
Definition rejects_nonpositive (o : GatewayWatchdogOpts) (now : Z) : Prop :=
  ((exists v, o_checkIntervalMs o = Some v /\ v <= 0) \/
   (exists v, o_staleThresholdMs o = Some v /\ v <= 0)) ->
  exists err, new_GatewayWatchdog o now = Thrown err.

(** C9 as worded, first alternative: a second [start()] changes nothing. *)
Definition restart_is_noop (w : World) : Prop :=
  is_running w = true -> start w = w.

(** *** Runs of checks *)

(** One period of complete silence: as much time as [staleThresholdMs] passes
    without an event, then the interval callback's [check] runs. *)
Definition silent_round (w : World) : World :=
  check (step (Elapse (Z.to_N (staleThresholdMs (opts (wd w))))) w).

(** The settle-delay timeouts a run of [k] resume attempts queues, the first
    of them at [t0], one threshold apart. *)
Fixpoint resume_timeouts (t0 th : Z) (k : nat) : list Timeout :=
  match k with
  | O => []
  | S k => mkTimeout (t0 + SETTLE_DELAY) SETTLE_DELAY true
           :: resume_timeouts (t0 + th) th k
  end.

(** A check that runs [dt] after the previous operation. *)
Definition late_check (dt : N) (w : World) : World :=
  check (step (Elapse dt) w).

(** * Webhook identity: [extractChannelId], [resolveAgentWebhook],
      [resolveAgentWebhookAsync]

    A JS string is a sequence of UTF-16 code units; a [string] here holds the
    code units below 256, which covers every literal of the source.  A
    property that may be [undefined] or [null] is an [option]. *)

(** [s.slice(n)] for [0 <= n]. *)
Fixpoint str_drop (n : nat) (s : string) : string :=
  match n, s with
  | O, _ => s
  | S n, String _ s' => str_drop n s'
  | S _, EmptyString => EmptyString
  end.

(** [s.slice(0, n)] for [0 <= n]. *)
Fixpoint str_take (n : nat) (s : string) : string :=
  match n, s with
  | O, _ => EmptyString
  | S n, String c s' => String c (str_take n s')
  | S _, EmptyString => EmptyString
  end.

(** The regexp class [\d]: the ten ASCII digits. *)
Definition is_digit (c : Ascii.ascii) : bool :=
  (48 <=? Ascii.nat_of_ascii c)%nat && (Ascii.nat_of_ascii c <=? 57)%nat.

Fixpoint all_digits (s : string) : bool :=
  match s with
  | EmptyString => true
  | String c s' => is_digit c && all_digits s'
  end.

(** [/^\d{17,20}$/.test(s)] *)
Definition is_snowflake (s : string) : bool :=
  all_digits s && (17 <=? String.length s)%nat && (String.length s <=? 20)%nat.

(** JS truthiness of a string: every string but the empty one. *)
Definition truthy_str (s : string) : bool := negb (s =? "")%string.

Definition extractChannelId (target : string) : option string :=
  if String.prefix "channel:" target
  then Some (str_drop (String.length "channel:") target)
  else if is_snowflake target then Some target
  else None.

(** What [obj[key]] yields on a plain object holding strings: an own
    property, or a member inherited from [Object.prototype]. *)
Inductive JsMember : Type :=
| MStr (s : string)
| MInherited (key : string).

Definition truthy_member (v : JsMember) : bool :=
  match v with
  | MStr s => truthy_str s
  | MInherited _ => true
  end.

Definition object_prototype_keys : list string :=
  ["constructor"; "__proto__"; "hasOwnProperty"; "isPrototypeOf";
   "propertyIsEnumerable"; "toLocaleString"; "toString"; "valueOf";
   "__defineGetter__"; "__defineSetter__"; "__lookupGetter__";
   "__lookupSetter__"].

(** Own properties of a [Record<string, string>], one entry per key. *)
Fixpoint own_get (r : list (string * string)) (k : string) : option string :=
  match r with
  | [] => None
  | (k', v) :: rest => if (k' =? k)%string then Some v else own_get rest k
  end.

(** [record[key]] *)
Definition record_get (r : list (string * string)) (k : string) : option JsMember :=
  match own_get r k with
  | Some v => Some (MStr v)
  | None =>
      if existsb (String.eqb k) object_prototype_keys
      then Some (MInherited k) else None
  end.

(** The parts of [OpenClawConfig] the code reads. *)
Record AgentIdentity : Type := mkIdentity {
  identity_name : option string;
  identity_theme : option string;
  identity_avatar : option string
}.

Record AgentDiscord : Type := mkDiscord {
  responseWebhook : option string;
  responseWebhooks : option (list (string * string));
  responseWebhookAvatar : option string
}.

Record AgentConfig : Type := mkAgent {
  agent_id : string;
  agent_name : option string;
  agent_identity : option AgentIdentity;
  agent_discord : option AgentDiscord;
  agent_workspace : option string
}.

Record AgentsConfig : Type := mkAgents {
  agents_list : option (list AgentConfig);
  agents_defaults_workspace : option string     (* agents.defaults?.workspace *)
}.

(** [binding.match?.peer] with its [kind] and [id]. *)
Record BindingPeer : Type := mkPeer {
  peer_kind : option string;
  peer_id : option string
}.

Record Binding : Type := mkBinding {
  binding_agentId : string;
  binding_peer : option BindingPeer
}.

(** A value of the [broadcast] record, typed [unknown] by its reader: an
    array (each element a string or something else) or anything else. *)
Inductive BroadcastValue : Type :=
| BArray (elems : list (option string))
| BOther.

Record OpenClawConfig : Type := mkConfig {
  agents : option AgentsConfig;
  bindings : option (list Binding);
  broadcast : option (list (string * BroadcastValue))
}.

(** [cfg.agents?.list?.find((a) => a.id === agentId)] *)
Definition find_agent (cfg : OpenClawConfig) (agentId : string) : option AgentConfig :=
  match agents cfg with
  | Some a =>
      match agents_list a with
      | Some l => find (fun a => (agent_id a =? agentId)%string) l
      | None => None
      end
  | None => None
  end.

Record AgentWebhookIdentity : Type := mkWebhookIdentity {
  webhookUrl : JsMember;
  username : string;
  avatarUrl : option string;
  threadId : option string
}.

(** The character U+00B7 of the username template. *)
Definition middle_dot : string := String (Ascii.ascii_of_nat 183) EmptyString.

(** [a ?? b] *)
Definition nullish {A : Type} (a b : option A) : option A :=
  match a with Some _ => a | None => b end.

(** The [username] expression of [resolveAgentWebhook]. *)
Definition webhook_username (agent : AgentConfig) : string :=
  match agent_name agent with
  | Some n => n
  | None =>
      let theme := match agent_identity agent with
                   | Some i => identity_theme i | None => None end in
      let iname := match agent_identity agent with
                   | Some i => identity_name i | None => None end in
      match theme with
      | Some t =>
          if truthy_str t
          then (from_option (agent_id agent) iname ++ " " ++ middle_dot ++ " " ++ t)%string
          else from_option (agent_id agent) iname
      | None => from_option (agent_id agent) iname
      end
  end.

Definition resolveAgentWebhook (cfg : OpenClawConfig) (agentId : option string)
  (target : string) : option AgentWebhookIdentity :=
  match agentId with
  | None => None
  | Some agentId =>
      if negb (truthy_str agentId) then None else
      match find_agent cfg agentId with
      | None => None
      | Some agent =>
          match agent_discord agent with
          | None => None
          | Some discord =>
              let channelId := extractChannelId target in
              let perChannelWebhook :=
                match channelId with
                | Some c =>
                    if truthy_str c
                    then match responseWebhooks discord with
                         | Some r => record_get r c
                         | None => None
                         end
                    else None
                | None => None
                end in
              let webhookUrl :=
                nullish perChannelWebhook (option_map MStr (responseWebhook discord)) in
              match webhookUrl with
              | None => None
              | Some url =>
                  if negb (truthy_member url) then None else
                  let avatarUrl :=
                    nullish (match agent_identity agent with
                             | Some i => identity_avatar i | None => None end)
                            (responseWebhookAvatar discord) in
                  Some (mkWebhookIdentity url (webhook_username agent) avatarUrl None)
              end
          end
      end
  end.

(** How the [try] block around [fetchChannelInfoDiscord(channelId)] goes:
    something in it throws (the import, the fetch, reading [parent_id] off a
    missing object), or channel info arrives with its [parent_id]. *)
Inductive FetchOutcome : Type :=
| FetchThrows
| FetchedChannel (parent_id : option string).

Definition resolveAgentWebhookAsync (fetchChannelInfoDiscord : string -> FetchOutcome)
  (cfg : OpenClawConfig) (agentId : option string) (target : string)
  : option AgentWebhookIdentity :=
  match resolveAgentWebhook cfg agentId target with
  | Some direct => Some direct
  | None =>
      match extractChannelId target with
      | None => None
      | Some channelId =>
          if negb (truthy_str channelId) then None else
          match fetchChannelInfoDiscord channelId with
          | FetchThrows => None
          | FetchedChannel None => None
          | FetchedChannel (Some parentId) =>
              if negb (truthy_str parentId) then None else
              match resolveAgentWebhook cfg agentId parentId with
              | None => None
              | Some parentResult =>
                  Some (mkWebhookIdentity (webhookUrl parentResult)
                                          (username parentResult)
                                          (avatarUrl parentResult)
                                          (Some channelId))
              end
          end
      end
  end.

(** *** A configuration used in the examples *)

Definition demo_discord : AgentDiscord :=
  mkDiscord (Some "https://discord.com/api/webhooks/default")
            (Some [("123456789012345678", "https://discord.com/api/webhooks/chan");
                   ("223456789012345678", "")])
            (Some "https://example.com/avatar.png").

Definition demo_agent : AgentConfig :=
  mkAgent "seven" None
          (Some (mkIdentity (Some "Seven") (Some "Senior Engineer") None))
          (Some demo_discord) (Some "/srv/seven").

Definition demo_config : OpenClawConfig :=
  mkConfig (Some (mkAgents (Some [demo_agent]) None))
           (Some [mkBinding "seven"
                            (Some (mkPeer (Some "channel") (Some "123456789012345678")))])
           None.

(** A fetch that reports one parent channel for every thread. *)
Definition fetch_parent (p : string) : string -> FetchOutcome :=
  fun _ => FetchedChannel (Some p).


(** * Cross-session memory plugin

    The plugin keeps, per workspace, a JSON file of recently received
    messages and prepends those of other sessions to an agent's context.
    Numbers of the plugin configuration and timestamps are integers ([Z]);
    the file system is a function from a workspace directory to what
    [loadCache] finds there. *)

Record CachedMessage : Type := mkMessage {
  timestamp : Z;
  sessionKey : string;
  msg_channelId : option string;
  msg_from : option string;
  content : string
}.

Record MessageCache : Type := mkCache {
  messages : list CachedMessage;
  lastPruned : Z
}.

Record PluginConfig : Type := mkPluginConfig {
  pc_cacheMinutes : option Z;
  pc_maxMessages : option Z;
  pc_maxChars : option Z;
  pc_excludeChannels : option (list string);
  pc_includeChannels : option (list string)
}.

Definition DEFAULT_CACHE_MINUTES : Z := 30.
Definition DEFAULT_MAX_MESSAGES : Z := 20.
Definition DEFAULT_MAX_CHARS : Z := 2000.

(** The constants [register] reads off the plugin configuration. *)
Definition cacheMinutes (pc : PluginConfig) : Z :=
  from_option DEFAULT_CACHE_MINUTES (pc_cacheMinutes pc).
Definition maxMessages (pc : PluginConfig) : Z :=
  from_option DEFAULT_MAX_MESSAGES (pc_maxMessages pc).
Definition maxChars (pc : PluginConfig) : Z :=
  from_option DEFAULT_MAX_CHARS (pc_maxChars pc).
Definition excludeChannels (pc : PluginConfig) : list string :=
  from_option [] (pc_excludeChannels pc).

(** [loadCache]: the parsed file, or an empty cache when reading or parsing
    throws.  [fs dir] is what the file of workspace [dir] parses to; a file
    that parses to something other than a cache is outside the model. *)
Definition loadCache (fs : string -> option MessageCache) (dir : string) (now : Z)
  : MessageCache :=
  match fs dir with
  | Some c => c
  | None => mkCache [] now
  end.

Definition pruneCache (now : Z) (cache : MessageCache) (maxAgeMs : Z) : MessageCache :=
  let cutoff := now - maxAgeMs in
  mkCache (filter (fun m => cutoff <? timestamp m) (messages cache)) now.

(** An integer inside a template literal. *)
Definition show_int (z : Z) : string := NilZero.string_of_int (Z.to_int z).

Definition formatAge (ms : Z) : string :=
  let minutes := ms / 60000 in
  if minutes <? 1 then "just now"
  else if minutes <? 60 then (show_int minutes ++ "m ago")%string
  else
    let hours := minutes / 60 in
    if hours <? 24 then (show_int hours ++ "h ago")%string
    else (show_int (hours / 24) ++ "d ago")%string.

(** [Array.prototype.slice(start)]: a negative [start] counts from the end. *)
Definition js_slice_from {A : Type} (start : Z) (l : list A) : list A :=
  let len := Z.of_nat (List.length l) in
  let k := if start <? 0 then Z.max (len + start) 0 else Z.min start len in
  skipn (Z.to_nat k) l.

(** White space and line terminators that [trim] strips, among the code
    units a [string] holds: TAB, LF, VT, FF, CR, space, NBSP. *)
Definition is_js_space (c : ascii) : bool :=
  let n := nat_of_ascii c in
  ((9 <=? n)%nat && (n <=? 13)%nat) || Nat.eqb n 32 || Nat.eqb n 160.

Fixpoint trim_start (s : string) : string :=
  match s with
  | EmptyString => EmptyString
  | String c s' => if is_js_space c then trim_start s' else s
  end.

Fixpoint trim_end (s : string) : string :=
  match s with
  | EmptyString => EmptyString
  | String c s' =>
      let t := trim_end s' in
      if is_js_space c && (t =? "")%string then EmptyString else String c t
  end.

(** [s.trim()] *)
Definition js_trim (s : string) : string := trim_end (trim_start s).

(** [hay.includes(needle)] *)
Fixpoint str_includes (needle hay : string) : bool :=
  match hay with
  | EmptyString => String.prefix needle hay
  | String _ hay' => String.prefix needle hay || str_includes needle hay'
  end.

(** The agent a binding or broadcast entry names, if it has a workspace. *)
Definition agent_with_workspace (cfg : OpenClawConfig) (agentId : string)
  : option (string * string) :=
  match find_agent cfg agentId with
  | Some a =>
      match agent_workspace a with
      | Some w => if truthy_str w then Some (agentId, w) else None
      | None => None
      end
  | None => None
  end.

(** [peer?.kind === "channel" && peer?.id === channelId] *)
Definition peer_is_channel (b : Binding) (channelId : string) : bool :=
  match binding_peer b with
  | Some p =>
      match peer_kind p, peer_id p with
      | Some k, Some i => (k =? "channel")%string && (i =? channelId)%string
      | _, _ => false
      end
  | None => false
  end.

(** The [for (const binding of bindings)] loop of [findAgentByChannel]. *)
Fixpoint agent_from_bindings (cfg : OpenClawConfig) (channelId : string)
  (bs : list Binding) : option (string * string) :=
  match bs with
  | [] => None
  | b :: rest =>
      if peer_is_channel b channelId
      then match agent_with_workspace cfg (binding_agentId b) with
           | Some r => Some r
           | None => agent_from_bindings cfg channelId rest
           end
      else agent_from_bindings cfg channelId rest
  end.

Fixpoint broadcast_get (r : list (string * BroadcastValue)) (k : string)
  : option BroadcastValue :=
  match r with
  | [] => None
  | (k', v) :: rest => if (k' =? k)%string then Some v else broadcast_get rest k
  end.

(** The broadcast part of [findAgentByChannel].  A key inherited from
    [Object.prototype] passes the [in] test but is no array, like [BOther]. *)
Definition agent_from_broadcast (cfg : OpenClawConfig) (channelId : string)
  : option (string * string) :=
  match broadcast cfg with
  | Some b =>
      match broadcast_get b channelId with
      | Some (BArray (Some agentId :: _)) => agent_with_workspace cfg agentId
      | _ => None
      end
  | None => None
  end.

(** [findAgentByChannel(channelId)]: the agent's id and workspace. *)
Definition findAgentByChannel (cfg : OpenClawConfig) (channelId : option string)
  : option (string * string) :=
  match channelId with
  | None => None
  | Some c =>
      if negb (truthy_str c) then None else
      match agent_from_bindings cfg c (from_option [] (bindings cfg)) with
      | Some r => Some r
      | None => agent_from_broadcast cfg c
      end
  end.

(** [api.config.agents?.defaults?.workspace] *)
Definition default_workspace (cfg : OpenClawConfig) : option string :=
  match agents cfg with
  | Some a => agents_defaults_workspace a
  | None => None
  end.

Record MessageEvent : Type := mkEvent {
  ev_content : option string;
  ev_from : option string;
  ev_timestamp : option Z
}.

(** How the [message_received] handler ends. *)
Inductive ReceiveOutcome : Type :=
| Skipped                                        (* returned early, silently *)
| WarnedNoWorkspace                              (* logged a warning, returned *)
| Saved (dir : string) (cache : MessageCache).   (* saveCache was called *)

Definition str_mem (x : string) (l : list string) : bool :=
  existsb (String.eqb x) l.

(** The handler registered for ["message_received"]; [conversationId] is
    [ctx.conversationId]. *)
Definition message_received (cfg : OpenClawConfig) (pc : PluginConfig)
  (fs : string -> option MessageCache) (now : Z)
  (event : MessageEvent) (conversationId : option string) : ReceiveOutcome :=
  match ev_content event with
  | None => Skipped
  | Some raw =>
      let text := js_trim raw in
      if negb (truthy_str text) then Skipped else
      if String.prefix "/" text then Skipped else
      let channelId := conversationId in
      let agentInfo := findAgentByChannel cfg channelId in
      let workspaceDir := nullish (option_map snd agentInfo) (default_workspace cfg) in
      match workspaceDir with
      | None => WarnedNoWorkspace
      | Some dir =>
          if negb (truthy_str dir) then WarnedNoWorkspace else
          let filtered :=
            match channelId with
            | Some c =>
                truthy_str c &&
                (str_mem c (excludeChannels pc) ||
                 match pc_includeChannels pc with
                 | Some inc => negb (str_mem c inc)
                 | None => false
                 end)
            | None => false
            end in
          if filtered then Skipped else
          let cache := loadCache fs dir now in
          let maxAgeMs := cacheMinutes pc * 60 * 1000 in
          let prunedCache := pruneCache now cache maxAgeMs in
          let pseudoSessionKey :=
            match agentInfo, channelId with
            | Some (id, _), Some c =>
                if truthy_str id && truthy_str c
                then ("agent:" ++ id ++ ":discord:channel:" ++ c)%string
                else c
            | _, Some c => c
            | _, None => "unknown"
            end in
          let newMessage :=
            mkMessage (from_option now (ev_timestamp event)) pseudoSessionKey
                      conversationId (ev_from event) text in
          let pushed := messages prunedCache ++ [newMessage] in
          let cacheLimit := maxMessages pc * 3 in
          let kept :=
            if cacheLimit <? Z.of_nat (List.length pushed)
            then js_slice_from (- cacheLimit) pushed
            else pushed in
          Saved dir (mkCache kept (lastPruned prunedCache))
      end
  end.

(** The regexp [/channel:(\d+)/]: the digits of the leftmost ["channel:"]
    that is followed by at least one digit. *)
Fixpoint take_digits (s : string) : string :=
  match s with
  | EmptyString => EmptyString
  | String c s' => if is_digit c then String c (take_digits s') else EmptyString
  end.

Definition channel_digits_here (s : string) : option string :=
  if String.prefix "channel:" s
  then let d := take_digits (str_drop (String.length "channel:") s) in
       if truthy_str d then Some d else None
  else None.

Fixpoint match_channel_digits (s : string) : option string :=
  match channel_digits_here s with
  | Some d => Some d
  | None =>
      match s with
      | EmptyString => None
      | String _ s' => match_channel_digits s'
      end
  end.

(** [msg.content.length > 200 ? msg.content.slice(0, 197) + "..." : msg.content] *)
Definition display_content (c : string) : string :=
  if (200 <? String.length c)%nat then (str_take 197 c ++ "...")%string else c.

(** One line of the injected context. *)
Definition format_line (now : Z) (msg : CachedMessage) : string :=
  let ageStr := formatAge (now - timestamp msg) in
  let channelId :=
    from_option (from_option "unknown" (msg_channelId msg))
                (match_channel_digits (sessionKey msg)) in
  ("[#" ++ channelId ++ " " ++ ageStr ++ "] "
   ++ from_option "User" (msg_from msg) ++ ": "
   ++ display_content (content msg))%string.

(** The loop that fills [formattedMessages]: it stops at the first line that
    would take the running total past [maxChars]. *)
Fixpoint take_within_budget (budget total : Z) (lines : list string) : list string :=
  match lines with
  | [] => []
  | line :: rest =>
      if budget <? total + Z.of_nat (String.length line) then []
      else line :: take_within_budget budget (total + Z.of_nat (String.length line)) rest
  end.

(** [sort((a, b) => a.timestamp - b.timestamp)]: ascending, and stable. *)
Fixpoint insert_by_timestamp (m : CachedMessage) (l : list CachedMessage)
  : list CachedMessage :=
  match l with
  | [] => [m]
  | x :: rest =>
      if timestamp m <=? timestamp x then m :: l
      else x :: insert_by_timestamp m rest
  end.

Definition sort_by_timestamp (l : list CachedMessage) : list CachedMessage :=
  fold_right insert_by_timestamp [] l.

Record AgentStartCtx : Type := mkStartCtx {
  ctx_sessionKey : option string;
  ctx_workspaceDir : option string
}.

Definition newline : string := String (ascii_of_nat 10) EmptyString.

(** [m.sessionKey !== currentSessionKey] *)
Definition other_session (current : option string) (m : CachedMessage) : bool :=
  match current with
  | Some k => negb (sessionKey m =? k)%string
  | None => true
  end.

(** The workspace whose cache [before_agent_start] reads. *)
Definition start_workspace (cfg : OpenClawConfig) (ctx : AgentStartCtx)
  : option string :=
  let agentConfig :=
    match agents cfg with
    | Some a =>
        match agents_list a with
        | Some l =>
            find (fun a =>
                    match ctx_sessionKey ctx with
                    | Some k => str_includes ("agent:" ++ agent_id a ++ ":") k
                    | None => false
                    end) l
        | None => None
        end
    | None => None
    end in
  nullish (ctx_workspaceDir ctx)
          (nullish (match agentConfig with
                    | Some a => agent_workspace a | None => None end)
                   (default_workspace cfg)).

(** The messages [before_agent_start] considers, oldest first. *)
Definition recent_messages (pc : PluginConfig) (now : Z) (current : option string)
  (cache : MessageCache) : list CachedMessage :=
  let prunedCache := pruneCache now cache (cacheMinutes pc * 60 * 1000) in
  let otherSessionMessages := filter (other_session current) (messages prunedCache) in
  js_slice_from (- maxMessages pc) (sort_by_timestamp otherSessionMessages).

(** The lines that end up in [formattedMessages]. *)
Definition formatted_messages (pc : PluginConfig) (now : Z) (current : option string)
  (cache : MessageCache) : list string :=
  take_within_budget (maxChars pc) 0
    (map (format_line now) (recent_messages pc now current cache)).

(** The handler registered for ["before_agent_start"]: the [prependContext]
    it returns, if any. *)
Definition before_agent_start (cfg : OpenClawConfig) (pc : PluginConfig)
  (fs : string -> option MessageCache) (now : Z) (ctx : AgentStartCtx)
  : option string :=
  match start_workspace cfg ctx with
  | None => None
  | Some dir =>
      if negb (truthy_str dir) then None else
      let cache := loadCache fs dir now in
      let lines := formatted_messages pc now (ctx_sessionKey ctx) cache in
      match lines with
      | [] => None
      | _ =>
          Some (String.concat newline
                  (["## Recent Activity (Other Channels)";
                    "The following messages were received in other channels recently:";
                    ""] ++ lines ++ [""]))
      end
  end.

(** The sum of [line.length] over a list of lines. *)
Definition total_chars (lines : list string) : Z :=
  fold_right (fun line acc => Z.of_nat (String.length line) + acc) 0 lines.

(** A plugin configuration with every default, and one that only accepts a
    single channel. *)
Definition default_plugin : PluginConfig := mkPluginConfig None None None None None.

Definition only_general : PluginConfig :=
  mkPluginConfig None None None None (Some ["111111111111111111"]).

Definition config_with_default_workspace : OpenClawConfig :=
  mkConfig (Some (mkAgents None (Some "/srv/shared"))) None None.

Definition empty_fs : string -> option MessageCache := fun _ => None.

(** * Sending through a webhook: the outbound adapter and reply delivery

    [sendDiscordWebhook], the bot's send function, the markdown table
    converter and the chunker live in other modules; they are parameters
    here.  A send either returns a result or throws. *)

(** One call [sendDiscordWebhook(url, content, { ... })]. *)
Record WebhookSend : Type := mkWebhookSend {
  ws_url : JsMember;
  ws_content : string;
  ws_username : string;
  ws_avatarUrl : option string;
  ws_mediaUrl : option string;
  ws_replyTo : option string;
  ws_threadId : option string
}.

(** One call [send(to, text, { verbose: false, ... })] of the bot. *)
Record BotSend : Type := mkBotSend {
  bs_to : string;
  bs_content : string;
  bs_mediaUrl : option string;
  bs_replyTo : option string;
  bs_accountId : option string
}.

Inductive SendCall : Type :=
| ViaWebhook (w : WebhookSend)
| ViaBot (b : BotSend).

(** [ctx.threadId]: absent ([null] or [undefined]), a string, or a number. *)
Inductive ThreadRef : Type :=
| ThreadAbsent
| ThreadStr (s : string)
| ThreadNum (n : Z).

Definition resolveThreadId (t : ThreadRef) : option string :=
  match t with
  | ThreadAbsent => None
  | ThreadStr s => if (s =? "")%string then None else Some s
  | ThreadNum n => Some (show_int n)
  end.

Record OutboundContext : Type := mkOutbound {
  oc_cfg : OpenClawConfig;
  oc_agentId : option string;
  oc_to : string;
  oc_text : string;
  oc_mediaUrl : option string;
  oc_accountId : option string;
  oc_replyToId : option string;
  oc_threadId : ThreadRef
}.

Section Outbound.
Variable R : Type.
Variable sendDiscordWebhook : WebhookSend -> option R.   (* [None]: throws *)
Variable send : BotSend -> option R.                     (* [None]: throws *)

(** The body shared by [sendText] and [sendMedia]; [media] is the
    [mediaUrl] option that only [sendMedia] passes on.  The result is the
    calls made, in order, and what the promise resolves to ([None]: it
    rejects). *)
Definition outbound_send (media : option string) (ctx : OutboundContext)
  : list SendCall * option R :=
  let bot := mkBotSend (oc_to ctx) (oc_text ctx) media
                       (oc_replyToId ctx) (oc_accountId ctx) in
  match resolveAgentWebhook (oc_cfg ctx) (oc_agentId ctx) (oc_to ctx) with
  | Some webhook =>
      let call := mkWebhookSend (webhookUrl webhook) (oc_text ctx)
                                (username webhook) (avatarUrl webhook) media
                                (oc_replyToId ctx)
                                (resolveThreadId (oc_threadId ctx)) in
      match sendDiscordWebhook call with
      | Some result => ([ViaWebhook call], Some result)
      | None => ([ViaWebhook call; ViaBot bot], send bot)
      end
  | None => ([ViaBot bot], send bot)
  end.

Definition sendText (ctx : OutboundContext) : list SendCall * option R :=
  outbound_send None ctx.

Definition sendMedia (ctx : OutboundContext) : list SendCall * option R :=
  outbound_send (oc_mediaUrl ctx) ctx.
End Outbound.

Record ReplyPayload : Type := mkPayload {
  rp_text : option string;
  rp_mediaUrl : option string;
  rp_mediaUrls : option (list string)
}.

Record DeliveryParams : Type := mkDelivery {
  dp_replies : list ReplyPayload;
  dp_webhookUrl : string;
  dp_username : string;
  dp_avatarUrl : option string;
  dp_textLimit : Z;
  dp_maxLinesPerMessage : option Z;
  dp_replyToId : option string;
  dp_tableMode : option string;
  dp_chunkMode : option string
}.

Section Delivery.
Variable convertMarkdownTables : string -> string -> string.
(** [chunkDiscordTextWithMode(text, { maxChars, maxLines, chunkMode })] *)
Variable chunkDiscordTextWithMode : string -> Z -> option Z -> string -> list string.

(** [payload.mediaUrls ?? (payload.mediaUrl ? [payload.mediaUrl] : [])] *)
Definition media_list (payload : ReplyPayload) : list string :=
  match rp_mediaUrls payload with
  | Some l => l
  | None =>
      match rp_mediaUrl payload with
      | Some u => if truthy_str u then [u] else []
      | None => []
      end
  end.

(** [params.replyToId?.trim() || undefined] *)
Definition reply_target (params : DeliveryParams) : option string :=
  match dp_replyToId params with
  | Some r => if truthy_str (js_trim r) then Some (js_trim r) else None
  | None => None
  end.

(** The [for (const chunk of chunks)] loop. *)
Fixpoint send_chunks (params : DeliveryParams) (replyTo : option string)
  (isFirstChunk : bool) (chunks : list string) : list WebhookSend :=
  match chunks with
  | [] => []
  | chunk :: rest =>
      let trimmed := js_trim chunk in
      if negb (truthy_str trimmed) then send_chunks params replyTo isFirstChunk rest
      else
        mkWebhookSend (MStr (dp_webhookUrl params)) trimmed (dp_username params)
                      (dp_avatarUrl params) None
                      (if isFirstChunk then replyTo else None) None
        :: send_chunks params replyTo false rest
  end.

(** One turn of the [for (const payload of params.replies)] loop: the
    sends it makes, each taken to return. *)
Definition deliver_payload (params : DeliveryParams) (payload : ReplyPayload)
  : list WebhookSend :=
  let chunkLimit := Z.min (dp_textLimit params) 2000 in
  let mediaList := media_list payload in
  let rawText := from_option "" (rp_text payload) in
  let tableMode := from_option "code" (dp_tableMode params) in
  let text := convertMarkdownTables rawText tableMode in
  match mediaList with
  | [] =>
      if negb (truthy_str text) then [] else
      let mode := from_option "length" (dp_chunkMode params) in
      let chunks :=
        chunkDiscordTextWithMode text chunkLimit (dp_maxLinesPerMessage params) mode in
      let chunks := match chunks with [] => [text] | _ => chunks end in
      send_chunks params (reply_target params) true chunks
  | firstMedia :: extras =>
      if negb (truthy_str firstMedia) then [] else
      mkWebhookSend (MStr (dp_webhookUrl params)) text (dp_username params)
                    (dp_avatarUrl params) (Some firstMedia)
                    (reply_target params) None
      :: map (fun extra =>
                mkWebhookSend (MStr (dp_webhookUrl params)) "" (dp_username params)
                              (dp_avatarUrl params) (Some extra) None None)
             extras
  end.

Definition deliverDiscordWebhookReply (params : DeliveryParams) : list WebhookSend :=
  flat_map (deliver_payload params) (dp_replies params).
End Delivery.

(** *** Events, caches and payloads used in the examples *)

Definition demo_event : MessageEvent :=
  mkEvent (Some "  hello there ") (Some "sam") (Some 1000).

Definition demo_message : CachedMessage :=
  mkMessage 1000 "agent:seven:discord:channel:123456789012345678"
            (Some "123456789012345678") (Some "sam") "hello there".

Definition demo_saved_cache : MessageCache := mkCache [demo_message] 2000.

Definition zero_plugin : PluginConfig :=
  mkPluginConfig None (Some 0) None None None.

Definition demo_fs : string -> option MessageCache :=
  fun _ => Some demo_saved_cache.

Definition demo_payload : ReplyPayload :=
  mkPayload (Some "see attached") None (Some ["https://cdn.example/a.png";
                                               "https://cdn.example/b.png"]).

Definition demo_delivery : DeliveryParams :=
  mkDelivery [demo_payload] "https://discord.com/api/webhooks/chan" "Seven"
             None 2000 None (Some " 42 ") None None.

(** * Properties *)

(** ** Frame lemmas: which fields each method can touch *)

Lemma stop_keeps_tracker (w : World) :
  lastEventAt (wd (stop w)) = lastEventAt (wd w) /\
  consecutiveStale (wd (stop w)) = consecutiveStale (wd w) /\
  opts (wd (stop w)) = opts (wd w).
Proof.
  unfold stop.
  destruct (checkTimer (wd w)); cbn;
    destruct (eventListener (wd w)); cbn;
    destruct (emitter (gateway w)); cbn; auto.
Qed.

Lemma stop_keeps_handle (w : World) :
  ops (stop w) = ops w /\
  timeouts (stop w) = timeouts w /\
  isConnected (gateway (stop w)) = isConnected (gateway w) /\
  gw_state (gateway (stop w)) = gw_state (gateway w) /\
  gw_sequence (gateway (stop w)) = gw_sequence (gateway w).
Proof.
  unfold stop.
  destruct (checkTimer (wd w)); cbn;
    destruct (eventListener (wd w)); cbn;
    destruct (emitter (gateway w)); cbn; auto 6.
Qed.

Lemma start_keeps_tracker (w : World) :
  lastEventAt (wd (start w)) = lastEventAt (wd w) /\
  consecutiveStale (wd (start w)) = consecutiveStale (wd w) /\
  ops (start w) = ops w.
Proof.
  unfold start. destruct (emitter (gateway w)); cbn; auto.
Qed.

Lemma is_stale_iff (w : World) :
  is_stale w = true <->
  staleThresholdMs (opts (wd w)) <= Date_now w - lastEventAt (wd w).
Proof.
  unfold is_stale. rewrite negb_true_iff, Z.ltb_ge. reflexivity.
Qed.

Lemma check_when_healthy (w : World) :
  is_stale w = false -> check w = w.
Proof.
  unfold is_stale, check. intros H. apply negb_false_iff in H.
  now rewrite H.
Qed.

Lemma check_when_disconnected (w : World) :
  is_stale w = true -> isConnected (gateway w) = false ->
  check w =
  runtime_log (LogWaiting (round_secs (Date_now w - lastEventAt (wd w))))
              (set_consecutiveStale (N.succ (consecutiveStale (wd w))) w).
Proof.
  unfold is_stale, check. intros H Hc. apply negb_true_iff in H.
  rewrite H. cbn. now rewrite Hc.
Qed.

Lemma check_when_resume (w : World) :
  is_stale w = true -> isConnected (gateway w) = true ->
  Z.of_N (N.succ (consecutiveStale (wd w)))
    < maxStaleBeforeFreshConnect (opts (wd w)) ->
  let w' := check w in
  ops w' = ops w ++ [OpDisconnect] /\
  timeouts w' =
    timeouts w ++ [mkTimeout (Date_now w + SETTLE_DELAY) SETTLE_DELAY true] /\
  gateway w' = gateway w /\
  consecutiveStale (wd w') = N.succ (consecutiveStale (wd w)) /\
  lastEventAt (wd w') = Date_now w /\
  clock w' = clock w.
Proof.
  unfold is_stale, check. intros H Hc Hlt. apply negb_true_iff in H.
  rewrite H. cbn. rewrite Hc. cbn.
  apply Z.leb_gt in Hlt. rewrite Hlt. cbn. auto 7.
Qed.

Lemma check_when_fresh (w : World) :
  is_stale w = true -> isConnected (gateway w) = true ->
  maxStaleBeforeFreshConnect (opts (wd w))
    <= Z.of_N (N.succ (consecutiveStale (wd w))) ->
  let w' := check w in
  ops w' = ops w ++ null_writes (gateway w) ++ [OpDisconnect] /\
  timeouts w' =
    timeouts w ++ [mkTimeout (Date_now w + SETTLE_DELAY) SETTLE_DELAY false] /\
  gw_state (gateway w') =
    (if present (gw_state (gateway w)) then Some (mkSession None None None) else None) /\
  gw_sequence (gateway w') =
    (if present (gw_sequence (gateway w)) then Some None else None) /\
  consecutiveStale (wd w') = 0%N /\
  lastEventAt (wd w') = Date_now w /\
  clock w' = clock w.
Proof.
  unfold is_stale, check. intros H Hc Hge. apply negb_true_iff in H.
  rewrite H. cbn. rewrite Hc. cbn.
  apply Z.leb_le in Hge. rewrite Hge.
  unfold clear_state, clear_sequence, null_writes.
  destruct (gw_state (gateway w)) eqn:Es; cbn; rewrite ?Es; cbn;
    destruct (gw_sequence (gateway w)) eqn:Eq; cbn; rewrite ?Es, ?Eq; cbn;
    rewrite <- ?app_assoc; cbn; auto 8.
Qed.

(** Running the newest timeout once its delay has passed calls
    [gateway.connect]; before that it does nothing. *)
Lemma settle_timeout_fires (w : World) (pre : list Timeout) (t : Timeout) (dt : N) :
  timeouts w = pre ++ [t] ->
  let w2 := run [Elapse dt; TimeoutFires (List.length pre)] w in
  (t_due t <= clock w + Z.of_N dt -> ops w2 = ops w ++ [OpConnect (t_resume t)]) /\
  (clock w + Z.of_N dt < t_due t -> ops w2 = ops w).
Proof.
  intros Ht. cbn. unfold fire_timeout; cbn. rewrite Ht.
  rewrite nth_error_app2 by lia. rewrite Nat.sub_diag. cbn.
  split; intros H.
  - apply Z.leb_le in H. now rewrite H.
  - apply Z.leb_gt in H. now rewrite H.
Qed.

(** ** The periodic check *)

(** C5.  Whenever the silence since the last liveness signal is strictly
    below [staleThresholdMs], [check] returns at its first guard: the world
    it leaves is the world it found, so nothing was called on the handle and
    no field of the watchdog moved.  The interval callback that wraps it
    (which may run [stop] on an abort instead) likewise issues no call and
    leaves [consecutiveStale] and [lastEventAt] alone. *)
Theorem check_healthy_is_noop (w : World)
  (Hfresh : Date_now w - lastEventAt (wd w) < staleThresholdMs (opts (wd w))) :
  check w = w /\
  (let w' := interval_callback w in
   ops w' = ops w /\ timeouts w' = timeouts w /\
   gw_state (gateway w') = gw_state (gateway w) /\
   gw_sequence (gateway w') = gw_sequence (gateway w) /\
   consecutiveStale (wd w') = consecutiveStale (wd w) /\
   lastEventAt (wd w') = lastEventAt (wd w)).
Proof.
  assert (Hh : check w = w).
  { apply check_when_healthy. unfold is_stale.
    apply negb_false_iff, Z.ltb_lt, Hfresh. }
  split; [exact Hh|].
  unfold interval_callback.
  destruct (abortSignal (opts (wd w)) && aborted w).
  - pose proof (stop_keeps_tracker w) as (Hl & Hc & _).
    pose proof (stop_keeps_handle w) as (Ho & Ht & _ & Hs & Hq).
    cbn. auto 7.
  - rewrite Hh. cbn. auto 7.
Qed.

(** ** The liveness handler *)

Lemma signals_keep_clock (l : list nat) (w : World) :
  clock (fold_left (fun w _ => recordSignal w) l w) = clock w.
Proof.
  revert w. induction l as [|a l IH]; intros w; [reflexivity|].
  cbn [fold_left]. now rewrite IH.
Qed.

Lemma signals_stamp_clock (l : list nat) (w : World) :
  l <> [] ->
  lastEventAt (wd (fold_left (fun w _ => recordSignal w) l w)) = Date_now w.
Proof.
  destruct l as [|a l] using rev_ind; [congruence|]. intros _.
  rewrite fold_left_app. cbn. apply signals_keep_clock.
Qed.

Lemma signals_reset_counter (l : list nat) (w : World) :
  l <> [] ->
  consecutiveStale (wd (fold_left (fun w _ => recordSignal w) l w)) = 0%N.
Proof.
  destruct l as [|a l] using rev_ind; [congruence|]. intros _.
  rewrite fold_left_app. reflexivity.
Qed.

(** After [start()] on a handle that has an emitter, a "debug" or "metrics"
    event reaches the handler. *)
Lemma emit_delivers_signal (w : World) (em : EventEmitter) (name : string) :
  emitter (gateway w) = Some em ->
  name = "debug" \/ name = "metrics" ->
  let w' := emit name (start w) in
  lastEventAt (wd w') = Date_now w /\ consecutiveStale (wd w') = 0%N.
Proof.
  intros Em Hn. unfold start, emit. rewrite Em. cbn.
  unfold emitter_on, emitter_listeners.
  rewrite <- !app_assoc, filter_app, map_app.
  assert (Hne : forall pre : list nat,
             pre ++ map snd (filter (fun r => (fst r =? name)%string)
                                    ([("debug", next_id w)] ++ [("metrics", next_id w)]))
             <> []).
  { intros pre Hnil. apply app_eq_nil in Hnil as [_ Hnil].
    destruct Hn as [-> | ->]; discriminate Hnil. }
  split.
  - rewrite signals_stamp_clock by apply Hne. reflexivity.
  - now rewrite signals_reset_counter by apply Hne.
Qed.

(** C6.  The liveness handler stores the current time in [lastEventAt] and
    0 in [consecutiveStale], whatever the world it runs in; run again after
    any lapse of time, however short (zero included), it does so again with
    the new current time. *)
Theorem recordSignal_resets_staleness (w : World) :
  lastEventAt (wd (recordSignal w)) = Date_now w /\
  consecutiveStale (wd (recordSignal w)) = 0%N /\
  (forall dt : N,
      let w2 := recordSignal (step (Elapse dt) (recordSignal w)) in
      lastEventAt (wd w2) = Date_now w + Z.of_N dt /\
      consecutiveStale (wd w2) = 0%N).
Proof.
  repeat split.
Qed.

(** ** Escalation *)

(** C2.  With [maxStaleBeforeFreshConnect = 3], a check that finds the handle
    connected and the silence stale, and whose incremented count is 1 or 2,
    calls [disconnect()] and nothing else on the handle, leaves the session
    fields as they were, and queues [connect(true)] behind the settle delay:
    the queued call runs once that delay has passed and not before. *)
Theorem check_resumes_below_three (w : World)
  (Hmax : maxStaleBeforeFreshConnect (opts (wd w)) = 3)
  (Hconn : isConnected (gateway w) = true)
  (Hstale : staleThresholdMs (opts (wd w)) <= Date_now w - lastEventAt (wd w))
  (Hcount : N.succ (consecutiveStale (wd w)) = 1%N \/
            N.succ (consecutiveStale (wd w)) = 2%N) :
  let w' := check w in
  ops w' = ops w ++ [OpDisconnect] /\
  gw_state (gateway w') = gw_state (gateway w) /\
  gw_sequence (gateway w') = gw_sequence (gateway w) /\
  timeouts w' =
    timeouts w ++ [mkTimeout (Date_now w + SETTLE_DELAY) SETTLE_DELAY true] /\
  (forall dt : N,
      let w2 := run [Elapse dt; TimeoutFires (List.length (timeouts w))] w' in
      (SETTLE_DELAY <= Z.of_N dt ->
       ops w2 = ops w ++ [OpDisconnect; OpConnect true]) /\
      (Z.of_N dt < SETTLE_DELAY -> ops w2 = ops w ++ [OpDisconnect])).
Proof.
  assert (Hlt : Z.of_N (N.succ (consecutiveStale (wd w)))
                < maxStaleBeforeFreshConnect (opts (wd w))).
  { rewrite Hmax. destruct Hcount as [-> | ->]; lia. }
  apply is_stale_iff in Hstale.
  destruct (check_when_resume w Hstale Hconn Hlt) as (Ho & Ht & Hg & _ & _ & Hk).
  cbv zeta. rewrite Hg. repeat split; try assumption.
  - intros Hd.
    destruct (settle_timeout_fires (check w) _ _ dt Ht) as [Hfire _].
    rewrite Hfire, Ho, <- app_assoc; [reflexivity|].
    rewrite Hk. unfold Date_now. cbn. lia.
  - intros Hd.
    destruct (settle_timeout_fires (check w) _ _ dt Ht) as [_ Hwait].
    rewrite Hwait, Ho; [reflexivity|].
    rewrite Hk. unfold Date_now. cbn. lia.
Qed.

(** C1.  A check that finds the handle connected and the silence stale, and
    whose incremented count has reached [maxStaleBeforeFreshConnect], nulls
    [sessionId], [resumeGatewayUrl] and [sequence] of the handle's session
    state (and the handle's own [sequence]) before it calls [disconnect()],
    queues [connect(false)] behind the settle delay (it runs once the delay
    has passed, not before), and leaves [consecutiveStale] at 0. *)
Theorem check_fresh_at_max (w : World)
  (Hconn : isConnected (gateway w) = true)
  (Hstale : staleThresholdMs (opts (wd w)) <= Date_now w - lastEventAt (wd w))
  (Hcount : maxStaleBeforeFreshConnect (opts (wd w))
            <= Z.of_N (N.succ (consecutiveStale (wd w)))) :
  let w' := check w in
  ops w' = ops w ++ null_writes (gateway w) ++ [OpDisconnect] /\
  (forall s, gw_state (gateway w') = Some s ->
             sessionId s = None /\ resumeGatewayUrl s = None /\ sequence s = None) /\
  (forall v, gw_sequence (gateway w') = Some v -> v = None) /\
  present (gw_state (gateway w')) = present (gw_state (gateway w)) /\
  timeouts w' =
    timeouts w ++ [mkTimeout (Date_now w + SETTLE_DELAY) SETTLE_DELAY false] /\
  (forall dt : N,
      let w2 := run [Elapse dt; TimeoutFires (List.length (timeouts w))] w' in
      (SETTLE_DELAY <= Z.of_N dt ->
       ops w2 = ops w ++ null_writes (gateway w) ++ [OpDisconnect; OpConnect false]) /\
      (Z.of_N dt < SETTLE_DELAY -> ops w2 = ops w')) /\
  consecutiveStale (wd w') = 0%N.
Proof.
  apply is_stale_iff in Hstale.
  destruct (check_when_fresh w Hstale Hconn Hcount)
    as (Ho & Ht & Hs & Hq & Hc & _ & Hk).
  cbv zeta.
  split; [exact Ho|].
  split.
  { intros s H. rewrite Hs in H.
    destruct (gw_state (gateway w)); cbn in H; [|discriminate].
    injection H as <-. cbn. auto. }
  split.
  { intros v H. rewrite Hq in H.
    destruct (gw_sequence (gateway w)); cbn in H; [|discriminate].
    now injection H as <-. }
  repeat split; try assumption.
  - rewrite Hs. now destruct (gw_state (gateway w)).
  - intros Hd.
    destruct (settle_timeout_fires (check w) _ _ dt Ht) as [Hfire _].
    rewrite Hfire, Ho, <- !app_assoc; [reflexivity|].
    rewrite Hk. unfold Date_now. cbn. lia.
  - intros Hd.
    destruct (settle_timeout_fires (check w) _ _ dt Ht) as [_ Hwait].
    apply Hwait. rewrite Hk. unfold Date_now. cbn. lia.
Qed.


(** C3, as worded, fails: on a disconnected handle two minutes silent, the
    check leaves [consecutiveStale] at 1, not at the 0 it found. *)
Lemma disconnected_check_moves_counter :
  ~ disconnected_check_leaves_counter silent_disconnected.
Proof.
  unfold disconnected_check_leaves_counter. intros H.
  assert (Hs : staleThresholdMs (opts (wd silent_disconnected))
               <= Date_now silent_disconnected
                  - lastEventAt (wd silent_disconnected))
    by (vm_compute; discriminate).
  destruct (H Hs eq_refl) as (_ & _ & Hc).
  vm_compute in Hc. discriminate.
Qed.

(** C3, amended.  A check that finds the silence stale while the handle
    reports [isConnected = false] calls nothing on the handle, queues
    nothing, writes no session field and leaves [lastEventAt] alone; the
    counter is not reset, it goes up by exactly one (the increment sits above
    the connection test). *)
Theorem check_disconnected_defers_but_counts (w : World)
  (Hstale : staleThresholdMs (opts (wd w)) <= Date_now w - lastEventAt (wd w))
  (Hdown : isConnected (gateway w) = false) :
  let w' := check w in
  ops w' = ops w /\
  timeouts w' = timeouts w /\
  gateway w' = gateway w /\
  lastEventAt (wd w') = lastEventAt (wd w) /\
  consecutiveStale (wd w') = N.succ (consecutiveStale (wd w)).
Proof.
  apply is_stale_iff in Hstale.
  cbv zeta. rewrite (check_when_disconnected w Hstale Hdown). cbn. auto.
Qed.

(** ** Construction *)

(** C8, as worded, fails: [checkIntervalMs = 0] and [staleThresholdMs = -5]
    are accepted; the constructor returns an object holding them. *)
Lemma constructor_accepts_nonpositive :
  ~ rejects_nonpositive nonpositive_opts 0.
Proof.
  unfold rejects_nonpositive. intros H.
  destruct H as [err Herr].
  - left. exists 0. split; [reflexivity | lia].
  - discriminate Herr.
Qed.

(** C8, amended.  Construction never signals an error: every option value is
    stored as given, non-positive ones included, and an omitted option takes
    its default (60000, 120000, 3). *)
Theorem constructor_stores_options_unchecked (o : GatewayWatchdogOpts) (now : Z) :
  exists g,
    new_GatewayWatchdog o now = Returned g /\
    checkIntervalMs (opts g) = from_option 60000 (o_checkIntervalMs o) /\
    staleThresholdMs (opts g) = from_option 120000 (o_staleThresholdMs o) /\
    maxStaleBeforeFreshConnect (opts g)
      = from_option 3 (o_maxStaleBeforeFreshConnect o) /\
    lastEventAt g = now /\
    consecutiveStale g = 0%N.
Proof.
  exists (constructed o now). repeat split.
Qed.

(** ** Lifecycle *)

Lemma start_always_adds_a_timer (w : World) :
  List.length (intervals (start w)) = S (List.length (intervals w)).
Proof.
  unfold start. destruct (emitter (gateway w)); cbn;
    rewrite length_app; cbn; lia.
Qed.

(** C9 on the code.  [start()] has no guard: called on a running watchdog it
    registers a second listener under both names and sets a second interval,
    overwriting the handles of the first.  [stop()] then removes only the
    second pair; the first interval stays active and its next tick still
    runs [check] against the handle. *)
Theorem start_twice_orphans_timer_and_listener :
  let w1 := start (boot default_opts (demo_gateway true) 0) in
  let w2 := start w1 in
  let w3 := stop w2 in
  is_running w1 = true /\
  ~ restart_is_noop w1 /\
  emitter (gateway w1) = Some [("debug", 0%nat); ("metrics", 0%nat)] /\
  emitter (gateway w2) = Some [("debug", 0%nat); ("metrics", 0%nat);
                               ("debug", 2%nat); ("metrics", 2%nat)] /\
  intervals w1 = [(1%nat, 60000)] /\
  intervals w2 = [(1%nat, 60000); (3%nat, 60000)] /\
  checkTimer (wd w3) = None /\
  intervals w3 = [(1%nat, 60000)] /\
  emitter (gateway w3) = Some [("debug", 0%nat); ("metrics", 0%nat)] /\
  ops (run [Elapse 120000; IntervalFires 1] w3) = [OpDisconnect].
Proof.
  cbv zeta. split; [reflexivity|]. split.
  - unfold restart_is_noop. intros H. specialize (H eq_refl).
    apply (f_equal next_id) in H. vm_compute in H. discriminate.
  - repeat split; vm_compute; reflexivity.
Qed.

(** ** The counter *)

Lemma check_counter (w : World) :
  consecutiveStale (wd (check w)) =
  match evaluate w with
  | Healthy => consecutiveStale (wd w)
  | FreshReconnect => 0%N
  | WaitForExternalReconnect | ResumeReconnect => N.succ (consecutiveStale (wd w))
  end.
Proof.
  unfold evaluate. destruct (is_stale w) eqn:Es; cbn.
  - destruct (isConnected (gateway w)) eqn:Ec; cbn.
    + destruct (maxStaleBeforeFreshConnect (opts (wd w))
                <=? Z.of_N (N.succ (consecutiveStale (wd w)))) eqn:Em.
      * apply Z.leb_le in Em. apply (check_when_fresh w Es Ec Em).
      * apply Z.leb_gt in Em. apply (check_when_resume w Es Ec Em).
    + now rewrite (check_when_disconnected w Es Ec).
  - now rewrite (check_when_healthy w Es).
Qed.

Lemma step_counter (ev : Event) (w : World) :
  (resets_counter ev w = true -> consecutiveStale (wd (step ev w)) = 0%N) /\
  (resets_counter ev w = false ->
   consecutiveStale (wd (step ev w)) = consecutiveStale (wd w) \/
   consecutiveStale (wd (step ev w)) = N.succ (consecutiveStale (wd w))).
Proof.
  unfold resets_counter, records_signal.
  destruct ev as [ | | name | dt | id | n | b | s | ]; cbn [step runs_check].
  - (* start *)
    destruct (start_keeps_tracker w) as (_ & Hc & _).
    destruct (emitter (gateway w)); cbn; split; (discriminate || auto).
  - (* stop *)
    destruct (stop_keeps_tracker w) as (_ & Hc & _).
    destruct (emitter (gateway w)); cbn; split; (discriminate || auto).
  - (* emit *)
    unfold emit. destruct (emitter (gateway w)) as [em|]; cbn.
    + rewrite orb_false_r.
      destruct (emitter_listeners name em) as [|l ls] eqn:El; cbn [List.length Nat.eqb negb].
      * split; [discriminate | auto].
      * split; [intros _ | discriminate].
        apply signals_reset_counter. discriminate.
    + split; [discriminate | auto].
  - destruct (emitter (gateway w)); cbn; split; (discriminate || auto).
  - (* an interval fires *)
    cbn [orb].
    destruct (interval_active id w); cbn; [|split; [discriminate | auto]].
    unfold interval_callback.
    destruct (abortSignal (opts (wd w)) && aborted w); cbn.
    + destruct (stop_keeps_tracker w) as (_ & Hc & _).
      split; [discriminate | auto].
    + rewrite check_counter.
      destruct (evaluate w); split; (discriminate || auto).
  - (* a timeout fires *)
    unfold fire_timeout.
    destruct (emitter (gateway w)); cbn;
      (destruct (nth_error (timeouts w) n) as [t|]; cbn;
       [destruct (t_due t <=? clock w); cbn|]);
      split; (discriminate || auto).
  - destruct (emitter (gateway w)); cbn; split; (discriminate || auto).
  - destruct (emitter (gateway w)); cbn; split; (discriminate || auto).
  - destruct (emitter (gateway w)); cbn; split; (discriminate || auto).
Qed.

(** C7.  Along every run of operations, one more operation either leaves
    [consecutiveStale] at least as large as it was or leaves it at 0.  It is
    left at 0 by every delivered liveness event and by every check that takes
    the fresh-reconnect branch; any other operation ([start], [stop], a
    healthy, deferring or resuming check, a timeout, the passage of time, the
    transport's own changes) keeps it or adds one. *)
Theorem consecutiveStale_drops_only_by_reset
  (w0 : World) (evs : list Event) (ev : Event) :
  let w := run evs w0 in
  let w' := step ev w in
  ((consecutiveStale (wd w) <= consecutiveStale (wd w'))%N \/
   consecutiveStale (wd w') = 0%N) /\
  (resets_counter ev w = true -> consecutiveStale (wd w') = 0%N) /\
  (resets_counter ev w = false ->
   consecutiveStale (wd w') = consecutiveStale (wd w) \/
   consecutiveStale (wd w') = N.succ (consecutiveStale (wd w))).
Proof.
  cbv zeta. destruct (step_counter ev (run evs w0)) as [Hreset Hkeep].
  split; [|split; assumption].
  destruct (resets_counter ev (run evs w0)).
  - right. now apply Hreset.
  - left. destruct (Hkeep eq_refl) as [-> | ->]; lia.
Qed.

(** ** Stopping *)

Lemma check_keeps_installations (w : World) :
  intervals (check w) = intervals w /\
  emitter (gateway (check w)) = emitter (gateway w) /\
  checkTimer (wd (check w)) = checkTimer (wd w) /\
  eventListener (wd (check w)) = eventListener (wd w).
Proof.
  unfold check.
  destruct (Date_now w - lastEventAt (wd w) <? staleThresholdMs (opts (wd w)));
    [auto|].
  cbn. destruct (isConnected (gateway w)); cbn; [|auto].
  destruct (maxStaleBeforeFreshConnect (opts (wd w))
            <=? Z.of_N (N.succ (consecutiveStale (wd w)))); cbn; [|auto].
  unfold clear_state, clear_sequence.
  destruct (gw_state (gateway w)) eqn:Es; cbn; rewrite ?Es; cbn;
    destruct (gw_sequence (gateway w)) eqn:Eq; cbn; rewrite ?Es, ?Eq; cbn; auto.
Qed.

Lemma single_handle_cleared (l : list (nat * Z)) (t : nat) :
  map fst l = [t] ->
  filter (fun i => negb (Nat.eqb (fst i) t)) l = [].
Proof.
  destruct l as [|[a p] [|b l]]; cbn; try discriminate.
  intros H. injection H as ->. now rewrite Nat.eqb_refl.
Qed.

Lemma registrations_removed (l : nat) :
  emitter_removeListener "metrics" l
    (emitter_removeListener "debug" l (registrations (Some l))) = [].
Proof.
  cbn. unfold registered. cbn. rewrite Nat.eqb_refl. cbn.
  unfold registered. cbn. now rewrite Nat.eqb_refl.
Qed.

Lemma stop_of_tracked (w : World) :
  tracked w -> quiet (stop w).
Proof.
  unfold tracked, quiet, stop. intros [Hi He].
  destruct (emitter (gateway w)) as [em|] eqn:Em.
  - destruct He as [-> Hn].
    destruct (checkTimer (wd w)) as [t|] eqn:Et;
      destruct (eventListener (wd w)) as [l|] eqn:El;
      try discriminate (Hn eq_refl);
      cbn in Hi; cbn; rewrite ?Et, ?El, ?Em;
      try rewrite registrations_removed; cbn;
      try rewrite (single_handle_cleared _ _ Hi);
      try (apply map_eq_nil in Hi; rewrite Hi);
      rewrite ?Et, ?El, ?Em; cbn; auto.
  - destruct (checkTimer (wd w)) as [t|] eqn:Et;
      destruct (eventListener (wd w)) as [l|] eqn:El;
      cbn in Hi; cbn; rewrite ?Et, ?El, ?Em; cbn;
      try rewrite (single_handle_cleared _ _ Hi);
      try (apply map_eq_nil in Hi; rewrite Hi);
      rewrite ?Et, ?El, ?Em; cbn; auto.
Qed.

Lemma quiet_is_tracked (w : World) : quiet w -> tracked w.
Proof.
  unfold quiet, tracked. intros (Hi & Ht & He). rewrite Hi, Ht. cbn.
  split; [reflexivity|].
  destruct (emitter (gateway w)); [|exact I].
  destruct He as [-> ->]. auto.
Qed.

Lemma start_of_stopped_tracked (w : World) :
  tracked w -> is_running w = false -> tracked (start w).
Proof.
  unfold tracked, is_running, start. intros [Hi He] Hr.
  destruct (checkTimer (wd w)) eqn:Et; [discriminate|]. cbn in Hi.
  apply map_eq_nil in Hi.
  destruct (emitter (gateway w)) as [em|] eqn:Em; cbn; rewrite Hi; cbn.
  - destruct He as [-> Hn]. rewrite (Hn eq_refl). cbn.
    repeat split. discriminate.
  - rewrite Em. auto.
Qed.

Lemma step_keeps_tracked (ev : Event) (w : World) :
  tracked w ->
  match ev with CallStart => negb (is_running w) | _ => true end = true ->
  tracked (step ev w).
Proof.
  intros Ht Hs.
  destruct ev as [ | | name | dt | id | n | b | s | ]; cbn [step].
  - apply start_of_stopped_tracked; [exact Ht|].
    now apply negb_true_iff in Hs.
  - apply quiet_is_tracked, stop_of_tracked, Ht.
  - unfold emit. destruct (emitter (gateway w)) as [em|] eqn:Em; [|exact Ht].
    induction (emitter_listeners name em) as [|l ls IH] using rev_ind;
      [exact Ht|].
    rewrite fold_left_app. cbn. exact IH.
  - exact Ht.
  - destruct (interval_active id w); [|exact Ht].
    unfold interval_callback.
    destruct (abortSignal (opts (wd w)) && aborted w).
    + apply quiet_is_tracked, stop_of_tracked, Ht.
    + destruct (check_keeps_installations w) as (Hi & He & Hc & Hl).
      unfold tracked in *. now rewrite Hi, He, Hc, Hl.
  - unfold fire_timeout.
    destruct (nth_error (timeouts w) n) as [t|]; [|exact Ht].
    destruct (t_due t <=? clock w); exact Ht.
  - exact Ht.
  - exact Ht.
  - exact Ht.
Qed.

Lemma run_keeps_tracked (evs : list Event) (w : World) :
  tracked w -> starts_only_when_stopped evs w = true -> tracked (run evs w).
Proof.
  revert w. induction evs as [|ev evs IH]; intros w Ht Hs; [exact Ht|].
  cbn in Hs. apply andb_true_iff in Hs as [Hev Hrest].
  change (run (ev :: evs) w) with (run evs (step ev w)).
  apply IH; [|exact Hrest].
  now apply step_keeps_tracked.
Qed.

Lemma drop_nth_incl {A : Type} (n : nat) (l : list A) :
  incl (drop_nth n l) l.
Proof.
  unfold drop_nth. intros x Hx. apply in_app_or in Hx as [Hx | Hx].
  - rewrite <- (firstn_skipn n l). apply in_or_app. now left.
  - rewrite <- (firstn_skipn (S n) l). apply in_or_app. now right.
Qed.

(** Anything but [start()] leaves a quiet world quiet, cannot touch the
    watchdog, and can at most run one pending timeout. *)
Lemma quiet_step (ev : Event) (w : World) :
  quiet w -> is_external ev = true ->
  quiet (step ev w) /\
  wd (step ev w) = wd w /\
  incl (timeouts (step ev w)) (timeouts w) /\
  exists late, ops (step ev w) = ops w ++ late /\
               Forall (late_connect (timeouts w)) late.
Proof.
  intros Hq Hx.
  assert (Hsame : forall w', w' = w ->
            quiet w' /\ wd w' = wd w /\ incl (timeouts w') (timeouts w) /\
            exists late, ops w' = ops w ++ late /\
                         Forall (late_connect (timeouts w)) late).
  { intros w' ->. repeat split; [apply Hq .. | apply incl_refl |].
    exists []. now rewrite app_nil_r. }
  assert (Hframe : forall w',
            intervals w' = intervals w -> wd w' = wd w ->
            emitter (gateway w') = emitter (gateway w) ->
            timeouts w' = timeouts w -> ops w' = ops w ->
            quiet w' /\ wd w' = wd w /\ incl (timeouts w') (timeouts w) /\
            exists late, ops w' = ops w ++ late /\
                         Forall (late_connect (timeouts w)) late).
  { intros w' Hi Hw He Hto Ho. unfold quiet. rewrite Hi, Hw, He, Hto, Ho.
    repeat split; [apply Hq .. | apply incl_refl |].
    exists []. now rewrite app_nil_r. }
  destruct Hq as (Hi & Hc & He).
  destruct ev as [ | | name | dt | id | n | b | s | ]; cbn [step];
    try discriminate Hx; try (apply Hframe; reflexivity).
  - (* stop() again *)
    apply Hsame. unfold stop. rewrite Hc.
    destruct (emitter (gateway w)) as [em|]; [|now destruct (eventListener (wd w))].
    destruct He as [_ ->]. reflexivity.
  - (* an event is emitted: nobody listens *)
    apply Hsame. unfold emit.
    destruct (emitter (gateway w)) as [em|]; [|reflexivity].
    destruct He as [-> _]. reflexivity.
  - (* an interval callback: none is active *)
    apply Hsame. unfold interval_active. now rewrite Hi.
  - (* a pending timeout *)
    unfold fire_timeout.
    destruct (nth_error (timeouts w) n) as [t|] eqn:En; [|now apply Hsame].
    destruct (t_due t <=? clock w); [|now apply Hsame].
    cbn. unfold quiet. cbn. repeat split; try assumption.
    + apply drop_nth_incl.
    + exists [OpConnect (t_resume t)]. split; [reflexivity|].
      constructor; [|constructor].
      exists t. split; [|reflexivity]. eapply nth_error_In, En.
Qed.

Lemma late_connect_mono (p q : list Timeout) (l : list GatewayOp) :
  incl p q -> Forall (late_connect p) l -> Forall (late_connect q) l.
Proof.
  intros Hpq. apply Forall_impl. intros op (t & Hin & ->).
  exists t. auto.
Qed.

Lemma quiet_run (evs : list Event) (w : World) :
  quiet w -> forallb is_external evs = true ->
  wd (run evs w) = wd w /\
  exists late, ops (run evs w) = ops w ++ late /\
               Forall (late_connect (timeouts w)) late.
Proof.
  revert w. induction evs as [|ev evs IH]; intros w Hq Hx.
  - split; [reflexivity|]. exists []. now rewrite app_nil_r.
  - cbn in Hx. apply andb_true_iff in Hx as [Hev Hrest].
    destruct (quiet_step ev w Hq Hev) as (Hq' & Hw & Hincl & l1 & Ho1 & Hl1).
    destruct (IH (step ev w) Hq' Hrest) as (Hw2 & l2 & Ho2 & Hl2).
    change (run (ev :: evs) w) with (run evs (step ev w)).
    split; [congruence|].
    exists (l1 ++ l2). split.
    + rewrite Ho2, Ho1. now rewrite app_assoc.
    + apply Forall_app. split; [exact Hl1|].
      eapply late_connect_mono; eassumption.
Qed.

Lemma boot_is_tracked (o : GatewayWatchdogOpts) (g : Gateway) (now : Z) :
  emitter g = None \/ emitter g = Some [] -> tracked (boot o g now).
Proof.
  unfold tracked. cbn. intros [-> | ->]; auto.
Qed.

(** C4, as worded, fails: a check that ran before [stop()] has queued its
    settle-delay [connect(true)]; [stop()] does not cancel it, and one second
    later the handle is called. *)
Lemma pending_connect_survives_stop :
  ~ stop_is_terminal mid_reconnect [Elapse 1000; TimeoutFires 0].
Proof.
  unfold stop_is_terminal. intros H.
  destruct (H eq_refl) as [_ Hops].
  vm_compute in Hops. discriminate.
Qed.

(** C4, amended.  Take a watchdog that holds every timer and listener it
    installed, and drive it by any run in which [start()] is only called
    while it is stopped.  After [stop()] returns, no later liveness event,
    interval tick, timeout, abort, further [stop()] or lapse of time changes
    any field of the watchdog, and the only calls the handle can still
    receive are the [connect] calls of settle-delay timeouts that were
    already pending when [stop()] returned: with none pending, none at all. *)
Theorem stop_silences_all_but_pending_connects
  (w0 : World) (before later : list Event)
  (Hinit : tracked w0)
  (Hstart : starts_only_when_stopped before w0 = true)
  (Hlater : forallb is_external later = true) :
  let w1 := stop (run before w0) in
  let w2 := run later w1 in
  wd w2 = wd w1 /\
  (exists late, ops w2 = ops w1 ++ late /\
                Forall (late_connect (timeouts w1)) late) /\
  (timeouts w1 = [] -> ops w2 = ops w1).
Proof.
  cbv zeta.
  pose proof (stop_of_tracked _ (run_keeps_tracked before w0 Hinit Hstart)) as Hq.
  destruct (quiet_run later _ Hq Hlater) as (Hw & late & Ho & Hl).
  split; [exact Hw|]. split.
  - exists late. auto.
  - intros Hnone. rewrite Hnone in Hl.
    destruct late as [|op late]; [now rewrite Ho, app_nil_r|].
    inversion Hl as [|? ? (t & [] & _) _].
Qed.

(** ** Instances on concrete worlds *)

Lemma check_healthy_is_noop_witness :
  Date_now (boot default_opts (demo_gateway true) 0)
  - lastEventAt (wd (boot default_opts (demo_gateway true) 0))
  < staleThresholdMs (opts (wd (boot default_opts (demo_gateway true) 0))) /\
  check (boot default_opts (demo_gateway true) 0)
  = boot default_opts (demo_gateway true) 0.
Proof.
  split; [reflexivity|].
  apply (check_healthy_is_noop (boot default_opts (demo_gateway true) 0)).
  reflexivity.
Defined.

Lemma check_resumes_below_three_witness :
  maxStaleBeforeFreshConnect (opts (wd first_stale)) = 3 /\
  isConnected (gateway first_stale) = true /\
  staleThresholdMs (opts (wd first_stale))
  <= Date_now first_stale - lastEventAt (wd first_stale) /\
  N.succ (consecutiveStale (wd first_stale)) = 1%N /\
  ops (check first_stale) = ops first_stale ++ [OpDisconnect].
Proof.
  assert (Hs : staleThresholdMs (opts (wd first_stale))
               <= Date_now first_stale - lastEventAt (wd first_stale))
    by (vm_compute; discriminate).
  split; [reflexivity|]. split; [reflexivity|]. split; [exact Hs|].
  split; [reflexivity|].
  apply (check_resumes_below_three first_stale eq_refl eq_refl Hs
                                   (or_introl eq_refl)).
Defined.

Lemma check_fresh_at_max_witness :
  isConnected (gateway third_stale) = true /\
  staleThresholdMs (opts (wd third_stale))
  <= Date_now third_stale - lastEventAt (wd third_stale) /\
  maxStaleBeforeFreshConnect (opts (wd third_stale))
  <= Z.of_N (N.succ (consecutiveStale (wd third_stale))) /\
  consecutiveStale (wd (check third_stale)) = 0%N.
Proof.
  assert (Hs : staleThresholdMs (opts (wd third_stale))
               <= Date_now third_stale - lastEventAt (wd third_stale))
    by (vm_compute; discriminate).
  assert (Hc : maxStaleBeforeFreshConnect (opts (wd third_stale))
               <= Z.of_N (N.succ (consecutiveStale (wd third_stale))))
    by (vm_compute; discriminate).
  split; [reflexivity|]. split; [exact Hs|]. split; [exact Hc|].
  apply (check_fresh_at_max third_stale eq_refl Hs Hc).
Defined.

Lemma check_disconnected_defers_but_counts_witness :
  staleThresholdMs (opts (wd silent_disconnected))
  <= Date_now silent_disconnected - lastEventAt (wd silent_disconnected) /\
  isConnected (gateway silent_disconnected) = false /\
  consecutiveStale (wd (check silent_disconnected))
  = N.succ (consecutiveStale (wd silent_disconnected)).
Proof.
  assert (Hs : staleThresholdMs (opts (wd silent_disconnected))
               <= Date_now silent_disconnected
                  - lastEventAt (wd silent_disconnected))
    by (vm_compute; discriminate).
  split; [exact Hs|]. split; [reflexivity|].
  apply (check_disconnected_defers_but_counts silent_disconnected Hs eq_refl).
Defined.

Lemma stop_silences_all_but_pending_connects_witness :
  tracked (boot default_opts (demo_gateway true) 0) /\
  starts_only_when_stopped
    [CallStart; Elapse 120000; IntervalFires 1; Elapse 1000; TimeoutFires 0]
    (boot default_opts (demo_gateway true) 0) = true /\
  forallb is_external
    [Emit "debug"; Elapse 120000; IntervalFires 1; AbortSignalled; CallStop]
  = true /\
  ops (run [Emit "debug"; Elapse 120000; IntervalFires 1; AbortSignalled; CallStop]
           (stop (run [CallStart; Elapse 120000; IntervalFires 1;
                       Elapse 1000; TimeoutFires 0]
                      (boot default_opts (demo_gateway true) 0))))
  = ops (stop (run [CallStart; Elapse 120000; IntervalFires 1;
                    Elapse 1000; TimeoutFires 0]
                   (boot default_opts (demo_gateway true) 0))).
Proof.
  assert (Ht : tracked (boot default_opts (demo_gateway true) 0))
    by (unfold tracked; cbn; auto).
  split; [exact Ht|]. split; [reflexivity|]. split; [reflexivity|].
  apply (stop_silences_all_but_pending_connects
           (boot default_opts (demo_gateway true) 0)
           [CallStart; Elapse 120000; IntervalFires 1; Elapse 1000; TimeoutFires 0]
           [Emit "debug"; Elapse 120000; IntervalFires 1; AbortSignalled; CallStop]
           Ht eq_refl eq_refl).
  reflexivity.
Defined.

(** * Further properties of the watchdog *)

(** ** Lifecycle *)

(** [stop()] is idempotent: a second call finds nothing left to cancel or
    remove and changes nothing, whatever state the first call started from. *)
Theorem stop_is_idempotent (w : World) : stop (stop w) = stop w.
Proof.
  unfold stop.
  destruct (checkTimer (wd w)) as [t|] eqn:Et;
    destruct (eventListener (wd w)) as [l|] eqn:El;
    destruct (emitter (gateway w)) as [em|] eqn:Em;
    cbn; rewrite ?Et, ?El, ?Em; cbn; rewrite ?Et, ?El, ?Em; reflexivity.
Qed.

(** From a state with nothing installed, [start()] followed by [stop()]
    leaves the watchdog's fields, the handle (its listener list included) and
    the timer table exactly as they were. *)
Theorem start_then_stop_restores (w : World) (Hq : quiet w) :
  let w' := stop (start w) in
  wd w' = wd w /\ gateway w' = gateway w /\
  intervals w' = intervals w /\ timeouts w' = timeouts w /\ ops w' = ops w.
Proof.
  destruct Hq as (Hi & Hc & He).
  destruct w as [c [la cs ct el o] [ic st sq em] ab iv ts nid op lg].
  cbn in *. subst iv ct.
  destruct em as [em|].
  - destruct He as [-> ->]. unfold start, stop. cbn.
    rewrite !Nat.eqb_refl. cbn. unfold registered. cbn.
    rewrite ?Nat.eqb_refl. cbn. auto.
  - unfold start, stop. cbn.
    destruct el; cbn; rewrite Nat.eqb_refl; cbn; auto.
Qed.

(** Only "debug" and "metrics" count as liveness: on a watchdog that holds
    what it installed, an event under any other name changes nothing. *)
Theorem emit_other_name_is_ignored (w : World) (name : string)
  (Ht : tracked w) (Hd : name <> "debug") (Hm : name <> "metrics") :
  emit name w = w.
Proof.
  unfold emit. destruct Ht as [_ He].
  destruct (emitter (gateway w)) as [em|]; [|reflexivity].
  destruct He as [-> _].
  apply String.eqb_neq in Hd, Hm. rewrite String.eqb_sym in Hd, Hm.
  destruct (eventListener (wd w)); [|reflexivity].
  unfold emitter_listeners, registrations. cbn [filter fst].
  now rewrite Hd, Hm.
Qed.


(** ** Timing *)

Lemma check_keeps_context (w : World) :
  clock (check w) = clock w /\
  opts (wd (check w)) = opts (wd w) /\
  isConnected (gateway (check w)) = isConnected (gateway w) /\
  (lastEventAt (wd (check w)) = lastEventAt (wd w) \/
   lastEventAt (wd (check w)) = clock w).
Proof.
  unfold check, Date_now.
  destruct (clock w - lastEventAt (wd w) <? staleThresholdMs (opts (wd w)));
    [auto|].
  cbn. destruct (isConnected (gateway w)) eqn:Ec; cbn; [|auto].
  destruct (maxStaleBeforeFreshConnect (opts (wd w))
            <=? Z.of_N (N.succ (consecutiveStale (wd w)))); cbn; [|auto].
  unfold clear_state, clear_sequence.
  destruct (gw_state (gateway w)) eqn:Es; cbn; rewrite ?Es; cbn;
    destruct (gw_sequence (gateway w)) eqn:Eq; cbn; rewrite ?Es, ?Eq; cbn; auto.
Qed.




(** "Prevent immediate re-trigger": after a stale check on a connected handle
    has forced a reconnect, a check that comes sooner than [staleThresholdMs]
    later finds the connection healthy and does nothing at all. *)
Theorem check_suppresses_retrigger (w : World) (dt : N)
  (Hconn : isConnected (gateway w) = true)
  (Hstale : staleThresholdMs (opts (wd w)) <= Date_now w - lastEventAt (wd w))
  (Hsoon : Z.of_N dt < staleThresholdMs (opts (wd w))) :
  check (step (Elapse dt) (check w)) = step (Elapse dt) (check w).
Proof.
  apply check_when_healthy. unfold is_stale.
  apply negb_false_iff, Z.ltb_lt. cbn.
  destruct (check_keeps_context w) as (Hk & Ho & _).
  rewrite Ho, Hk.
  apply is_stale_iff in Hstale.
  destruct (Z_le_gt_dec (maxStaleBeforeFreshConnect (opts (wd w)))
                        (Z.of_N (N.succ (consecutiveStale (wd w))))) as [Hge | Hlt].
  - destruct (check_when_fresh w Hstale Hconn Hge) as (_ & _ & _ & _ & _ & -> & _).
    unfold Date_now. lia.
  - destruct (check_when_resume w Hstale Hconn ltac:(lia)) as (_ & _ & _ & _ & -> & _).
    unfold Date_now. lia.
Qed.

(** ** Escalation over several checks *)

Lemma silent_round_resumes (w : World) :
  isConnected (gateway w) = true ->
  lastEventAt (wd w) <= clock w ->
  Z.of_N (N.succ (consecutiveStale (wd w)))
    < maxStaleBeforeFreshConnect (opts (wd w)) ->
  let w' := silent_round w in
  let th := Z.of_N (Z.to_N (staleThresholdMs (opts (wd w)))) in
  isConnected (gateway w') = true /\
  lastEventAt (wd w') = clock w' /\
  clock w' = clock w + th /\
  opts (wd w') = opts (wd w) /\
  gateway w' = gateway w /\
  consecutiveStale (wd w') = N.succ (consecutiveStale (wd w)) /\
  ops w' = ops w ++ [OpDisconnect] /\
  timeouts w' = timeouts w ++ [mkTimeout (clock w + th + SETTLE_DELAY) SETTLE_DELAY true].
Proof.
  intros Hc Hle Hlt. unfold silent_round. cbv zeta.
  set (w1 := step (Elapse (Z.to_N (staleThresholdMs (opts (wd w))))) w).
  assert (Hs : is_stale w1 = true).
  { apply is_stale_iff. subst w1. unfold Date_now. cbn. lia. }
  destruct (check_when_resume w1 Hs Hc Hlt) as (Ho & Ht & Hg & Hcs & Hl & Hk).
  destruct (check_keeps_context w1) as (_ & Hop & _).
  rewrite Hg, Hl, Hk, Hop, Hcs, Ho, Ht. subst w1. unfold Date_now. cbn.
  rewrite Hc. auto 10.
Qed.

Lemma silent_round_goes_fresh (w : World) :
  isConnected (gateway w) = true ->
  lastEventAt (wd w) <= clock w ->
  maxStaleBeforeFreshConnect (opts (wd w))
    <= Z.of_N (N.succ (consecutiveStale (wd w))) ->
  let w' := silent_round w in
  let th := Z.of_N (Z.to_N (staleThresholdMs (opts (wd w)))) in
  ops w' = ops w ++ null_writes (gateway w) ++ [OpDisconnect] /\
  timeouts w' = timeouts w ++ [mkTimeout (clock w + th + SETTLE_DELAY) SETTLE_DELAY false] /\
  consecutiveStale (wd w') = 0%N.
Proof.
  intros Hc Hle Hge. unfold silent_round. cbv zeta.
  set (w1 := step (Elapse (Z.to_N (staleThresholdMs (opts (wd w))))) w).
  assert (Hs : is_stale w1 = true).
  { apply is_stale_iff. subst w1. unfold Date_now. cbn. lia. }
  destruct (check_when_fresh w1 Hs Hc Hge) as (Ho & Ht & _ & _ & Hcs & _).
  rewrite Ho, Ht, Hcs. subst w1. unfold Date_now. cbn. auto.
Qed.

(** On a connected handle that stays silent, the checks that find it stale
    resume exactly until the counter reaches [maxStaleBeforeFreshConnect]:
    starting from a count [c], the next [max - 1 - c] silent periods each call
    [disconnect()] and queue [connect(true)] and write no session field, and
    the period after them takes the fresh branch (null writes, [disconnect()],
    [connect(false)] queued, counter back to 0). *)
Theorem resumes_precede_fresh (w : World) (k : nat)
  (Hconn : isConnected (gateway w) = true)
  (Hle : lastEventAt (wd w) <= clock w)
  (Hk : Z.of_N (consecutiveStale (wd w)) + Z.of_nat k + 1
        = maxStaleBeforeFreshConnect (opts (wd w))) :
  let th := Z.of_N (Z.to_N (staleThresholdMs (opts (wd w)))) in
  let w1 := Nat.iter k silent_round w in
  let w2 := silent_round w1 in
  ops w1 = ops w ++ repeat OpDisconnect k /\
  timeouts w1 = timeouts w ++ resume_timeouts (clock w + th) th k /\
  gateway w1 = gateway w /\
  ops w2 = ops w1 ++ null_writes (gateway w) ++ [OpDisconnect] /\
  timeouts w2 = timeouts w1 ++
                [mkTimeout (clock w1 + th + SETTLE_DELAY) SETTLE_DELAY false] /\
  consecutiveStale (wd w2) = 0%N.
Proof.
  cbv zeta.
  assert (Hiter : forall j : nat,
    (j <= k)%nat ->
    let wj := Nat.iter j silent_round w in
    isConnected (gateway wj) = true /\
    lastEventAt (wd wj) <= clock wj /\
    opts (wd wj) = opts (wd w) /\
    gateway wj = gateway w /\
    consecutiveStale (wd wj) = (consecutiveStale (wd w) + N.of_nat j)%N /\
    ops wj = ops w ++ repeat OpDisconnect j /\
    forall t0, t0 = clock w + Z.of_N (Z.to_N (staleThresholdMs (opts (wd w)))) ->
    clock wj = clock w + Z.of_nat j * Z.of_N (Z.to_N (staleThresholdMs (opts (wd w)))) /\
    timeouts wj = timeouts w ++
      resume_timeouts t0 (Z.of_N (Z.to_N (staleThresholdMs (opts (wd w))))) j).
  { induction j as [|j IH]; intros Hj.
    - cbn. rewrite !app_nil_r, N.add_0_r. repeat split; auto; lia.
    - destruct (IH ltac:(lia)) as (Hc & Hl & Ho & Hg & Hcs & Hops & Hts).
      change (Nat.iter (S j) silent_round w)
        with (silent_round (Nat.iter j silent_round w)).
      cbv zeta in *.
      destruct (silent_round_resumes (Nat.iter j silent_round w) Hc Hl)
        as (Hc' & Hl' & Hk' & Ho' & Hg' & Hcs' & Hops' & Hts').
      { rewrite Ho, Hcs. lia. }
      rewrite Ho in Hk', Hts'.
      repeat split.
      + exact Hc'.
      + lia.
      + congruence.
      + congruence.
      + rewrite Hcs', Hcs. lia.
      + rewrite Hops', Hops, <- app_assoc. f_equal.
        symmetry. apply (repeat_cons j OpDisconnect).
      + destruct (Hts t0 H) as [Hck _]. rewrite Hk', Hck. lia.
      + destruct (Hts t0 H) as [Hck Htj]. rewrite Hts', Htj, Hck, <- app_assoc.
        f_equal. subst t0. clear.
        generalize (clock w) as c.
        generalize (Z.of_N (Z.to_N (staleThresholdMs (opts (wd w))))) as th.
        induction j as [|j IHj]; intros th c.
        * cbn. do 2 f_equal. lia.
        * cbn [resume_timeouts app]. f_equal.
          specialize (IHj th (c + th)).
          replace (c + th + Z.of_nat j * th + th + SETTLE_DELAY)
            with (c + Z.of_nat (S j) * th + th + SETTLE_DELAY) in IHj by lia.
          exact IHj. }
  destruct (Hiter k (le_n k)) as (Hc & Hl & Ho & Hg & Hcs & Hops & Hts).
  destruct (Hts _ eq_refl) as [Hck Htk].
  split; [exact Hops|]. split; [exact Htk|]. split; [exact Hg|].
  destruct (silent_round_goes_fresh (Nat.iter k silent_round w) Hc Hl)
    as (Hfo & Hft & Hfc).
  { rewrite Ho, Hcs. lia. }
  cbv zeta in Hfo, Hft, Hfc. rewrite Hg in Hfo. rewrite Ho in Hft.
  repeat split; assumption.
Qed.

Lemma late_check_when_disconnected (dt : N) (w : World) :
  isConnected (gateway w) = false ->
  staleThresholdMs (opts (wd w)) <= clock w - lastEventAt (wd w) ->
  let w' := late_check dt w in
  isConnected (gateway w') = false /\
  staleThresholdMs (opts (wd w')) <= clock w' - lastEventAt (wd w') /\
  opts (wd w') = opts (wd w) /\
  gateway w' = gateway w /\
  ops w' = ops w /\ timeouts w' = timeouts w /\
  consecutiveStale (wd w') = N.succ (consecutiveStale (wd w)).
Proof.
  intros Hd Hs. unfold late_check. cbv zeta.
  set (w1 := step (Elapse dt) w).
  assert (Hs1 : is_stale w1 = true).
  { apply is_stale_iff. subst w1. unfold Date_now. cbn. lia. }
  rewrite (check_when_disconnected w1 Hs1 Hd). subst w1. cbn.
  repeat split; auto. lia.
Qed.

(** Stale checks that find the handle disconnected still count: [n] of them
    call nothing but raise the counter by [n], so if that brings it within
    one of [maxStaleBeforeFreshConnect], the first check after the transport
    reports connected again goes straight to the fresh branch, with no resume
    attempted in between. *)
Theorem disconnected_checks_skip_resume (w : World) (dt : N) (n : nat)
  (Hdown : isConnected (gateway w) = false)
  (Hstale : staleThresholdMs (opts (wd w)) <= Date_now w - lastEventAt (wd w))
  (Hmax : maxStaleBeforeFreshConnect (opts (wd w))
          <= Z.of_N (consecutiveStale (wd w)) + Z.of_nat n + 1) :
  let w1 := Nat.iter n (late_check dt) w in
  let w2 := check (step (TransportStatus true) w1) in
  ops w1 = ops w /\ timeouts w1 = timeouts w /\
  consecutiveStale (wd w1) = (consecutiveStale (wd w) + N.of_nat n)%N /\
  ops w2 = ops w ++ null_writes (gateway w) ++ [OpDisconnect] /\
  timeouts w2 = timeouts w ++ [mkTimeout (clock w1 + SETTLE_DELAY) SETTLE_DELAY false] /\
  consecutiveStale (wd w2) = 0%N.
Proof.
  cbv zeta. unfold Date_now in Hstale.
  assert (Hiter :
    let w1 := Nat.iter n (late_check dt) w in
    isConnected (gateway w1) = false /\
    staleThresholdMs (opts (wd w1)) <= clock w1 - lastEventAt (wd w1) /\
    opts (wd w1) = opts (wd w) /\
    gateway w1 = gateway w /\
    ops w1 = ops w /\ timeouts w1 = timeouts w /\
    consecutiveStale (wd w1) = (consecutiveStale (wd w) + N.of_nat n)%N).
  { clear Hmax. induction n as [|n IH].
    - cbn. rewrite N.add_0_r. auto 10.
    - change (Nat.iter (S n) (late_check dt) w)
        with (late_check dt (Nat.iter n (late_check dt) w)).
      cbv zeta in *. destruct IH as (Hd & Hs & Ho & Hg & Hops & Hts & Hcs).
      destruct (late_check_when_disconnected dt _ Hd Hs)
        as (Hd' & Hs' & Ho' & Hg' & Hops' & Hts' & Hcs').
      cbv zeta in *.
      repeat split; try congruence.
      rewrite Hcs', Hcs. lia. }
  cbv zeta in Hiter. destruct Hiter as (Hd & Hs & Ho & Hg & Hops & Hts & Hcs).
  split; [exact Hops|]. split; [exact Hts|]. split; [exact Hcs|].
  set (w1 := Nat.iter n (late_check dt) w) in *.
  set (wc := step (TransportStatus true) w1).
  assert (Hsc : is_stale wc = true).
  { apply is_stale_iff. subst wc. unfold Date_now. cbn. exact Hs. }
  assert (Hge : maxStaleBeforeFreshConnect (opts (wd wc))
                <= Z.of_N (N.succ (consecutiveStale (wd wc)))).
  { subst wc. cbn. rewrite Ho, Hcs. lia. }
  destruct (check_when_fresh wc Hsc eq_refl Hge) as (Hfo & Hft & _ & _ & Hfc & _).
  rewrite Hfo, Hft, Hfc. subst wc. unfold Date_now, null_writes. cbn.
  rewrite Hops, Hts, Hg. auto.
Qed.

(** * Properties of the webhook identity resolver *)

(** ** Strings *)

Lemma prefix_app (p s : string) : String.prefix p (p ++ s)%string = true.
Proof.
  induction p as [|a p IH]; cbn; [now destruct s|].
  destruct (Ascii.ascii_dec a a); [exact IH | congruence].
Qed.

Lemma str_drop_app (p s : string) : str_drop (String.length p) (p ++ s)%string = s.
Proof.
  induction p as [|a p IH]; cbn; [now destruct s | exact IH].
Qed.

Lemma prefix_split (p t : string) :
  String.prefix p t = true -> t = (p ++ str_drop (String.length p) t)%string.
Proof.
  revert t. induction p as [|a p IH]; intros t H; cbn.
  - now destruct t.
  - destruct t as [|b t]; cbn in H; [discriminate|].
    destruct (Ascii.ascii_dec a b) as [<-|]; [|discriminate].
    f_equal. now apply IH.
Qed.

Lemma snowflake_not_prefixed (t : string) :
  is_snowflake t = true -> String.prefix "channel:" t = false.
Proof.
  unfold is_snowflake. intros H.
  apply andb_true_iff in H as [H _]. apply andb_true_iff in H as [Hd Hl].
  destruct t as [|c t]; [discriminate Hl|].
  cbn in Hd. apply andb_true_iff in Hd as [Hc _].
  cbn [String.prefix].
  destruct (Ascii.ascii_dec "c"%char c) as [<-|]; [discriminate Hc | reflexivity].
Qed.

(** ** [extractChannelId] *)

(** [extractChannelId] yields [c] exactly when the target is ["channel:"]
    followed by [c] (any [c], the empty string included) or is itself a run
    of 17 to 20 ASCII digits [c]; every other target yields [null]. *)
Theorem extractChannelId_spec (t c : string) :
  extractChannelId t = Some c <->
  t = ("channel:" ++ c)%string \/ (t = c /\ is_snowflake c = true).
Proof.
  unfold extractChannelId. split.
  - destruct (String.prefix "channel:" t) eqn:Hp.
    + intros [= <-]. left. now apply prefix_split.
    + destruct (is_snowflake t) eqn:Hs; [|discriminate].
      intros [= <-]. right. auto.
  - intros [-> | [-> Hs]].
    + rewrite prefix_app. now rewrite (str_drop_app "channel:" c).
    + rewrite (snowflake_not_prefixed c Hs), Hs. reflexivity.
Qed.

(** ** [resolveAgentWebhook] *)

Lemma find_agent_id (cfg : OpenClawConfig) (id : string) (agent : AgentConfig) :
  find_agent cfg id = Some agent -> agent_id agent = id.
Proof.
  unfold find_agent. destruct (agents cfg) as [a|]; [|discriminate].
  destruct (agents_list a) as [l|]; [|discriminate].
  intros H. apply find_some in H as [_ H]. now apply String.eqb_eq.
Qed.

(** Every way through [resolveAgentWebhook] that returns an identity. *)
Lemma resolveAgentWebhook_inv (cfg : OpenClawConfig) (agentId : option string)
  (target : string) (r : AgentWebhookIdentity) :
  resolveAgentWebhook cfg agentId target = Some r ->
  exists id agent discord,
    agentId = Some id /\ truthy_str id = true /\
    find_agent cfg id = Some agent /\
    agent_discord agent = Some discord /\
    truthy_member (webhookUrl r) = true /\
    username r = webhook_username agent /\
    avatarUrl r = nullish (match agent_identity agent with
                           | Some i => identity_avatar i | None => None end)
                          (responseWebhookAvatar discord) /\
    threadId r = None.
Proof.
  unfold resolveAgentWebhook. intros H.
  destruct agentId as [id|]; [|discriminate].
  destruct (truthy_str id) eqn:Hid; [|discriminate]. cbn in H.
  destruct (find_agent cfg id) as [agent|] eqn:Hf; [|discriminate].
  destruct (agent_discord agent) as [discord|] eqn:Hd; [|discriminate].
  cbv zeta in H.
  match type of H with
  | match ?u with _ => _ end = _ => destruct u as [url|]; [|discriminate]
  end.
  destruct (truthy_member url) eqn:Hu; [|discriminate]. cbn in H.
  injection H as <-. exists id, agent, discord. cbn. auto 10.
Qed.

(** An identity that [resolveAgentWebhook] returns always carries a webhook
    URL that is not the empty string and no [threadId], and it names an agent
    of the configuration that has that (non-empty) id and a [discord]
    block. *)
Theorem resolved_identity_is_usable (cfg : OpenClawConfig)
  (agentId : option string) (target : string) (r : AgentWebhookIdentity)
  (H : resolveAgentWebhook cfg agentId target = Some r) :
  webhookUrl r <> MStr "" /\ threadId r = None /\
  exists id agent,
    agentId = Some id /\ id <> "" /\
    find_agent cfg id = Some agent /\ agent_id agent = id /\
    agent_discord agent <> None.
Proof.
  destruct (resolveAgentWebhook_inv _ _ _ _ H)
    as (id & agent & discord & -> & Hid & Hf & Hd & Hu & _ & _ & Ht).
  split.
  { intros E. rewrite E in Hu. discriminate Hu. }
  split; [exact Ht|].
  exists id, agent. repeat split; auto.
  - intros ->. discriminate Hid.
  - eapply find_agent_id, Hf.
  - congruence.
Qed.

(** The display name and the avatar belong to the agent, not to the channel:
    two lookups for the same agent return the same [username] and
    [avatarUrl], whatever the two targets are. *)
Theorem identity_does_not_depend_on_target (cfg : OpenClawConfig)
  (agentId : option string) (t1 t2 : string) (r1 r2 : AgentWebhookIdentity)
  (H1 : resolveAgentWebhook cfg agentId t1 = Some r1)
  (H2 : resolveAgentWebhook cfg agentId t2 = Some r2) :
  username r1 = username r2 /\ avatarUrl r1 = avatarUrl r2.
Proof.
  destruct (resolveAgentWebhook_inv _ _ _ _ H1)
    as (id & a1 & d1 & E1 & _ & Hf1 & Hd1 & _ & Hn1 & Ha1 & _).
  destruct (resolveAgentWebhook_inv _ _ _ _ H2)
    as (id' & a2 & d2 & E2 & _ & Hf2 & Hd2 & _ & Hn2 & Ha2 & _).
  rewrite E1 in E2. injection E2 as <-.
  rewrite Hf1 in Hf2. injection Hf2 as <-.
  rewrite Hd1 in Hd2. injection Hd2 as <-.
  split; congruence.
Qed.

(** An entry of [responseWebhooks] for the target's channel always decides:
    a non-empty URL is used whatever the default [responseWebhook] is, and an
    empty one turns the webhook off for that channel even when a default is
    configured. *)
Theorem per_channel_entry_decides (cfg : OpenClawConfig) (id target c u : string)
  (agent : AgentConfig) (discord : AgentDiscord) (r : list (string * string))
  (Hid : id <> "")
  (Hagent : find_agent cfg id = Some agent)
  (Hdiscord : agent_discord agent = Some discord)
  (Hchan : extractChannelId target = Some c)
  (Hc : c <> "")
  (Hrec : responseWebhooks discord = Some r)
  (Hentry : own_get r c = Some u) :
  (u = "" -> resolveAgentWebhook cfg (Some id) target = None) /\
  (u <> "" ->
   exists ident, resolveAgentWebhook cfg (Some id) target = Some ident /\
                 webhookUrl ident = MStr u).
Proof.
  unfold resolveAgentWebhook, truthy_str.
  apply String.eqb_neq in Hid, Hc. rewrite Hid. cbn [negb].
  rewrite Hagent, Hdiscord, Hchan. cbv zeta. rewrite Hc. cbn [negb].
  rewrite Hrec. unfold record_get. rewrite Hentry. cbn [nullish truthy_member].
  unfold truthy_str. split.
  - intros ->. reflexivity.
  - intros Hu. apply String.eqb_neq in Hu. rewrite Hu. cbn [negb].
    eexists. split; reflexivity.
Qed.

Lemma digits_are_not_prototype_keys (c : string) :
  all_digits c = true -> c <> "" ->
  existsb (String.eqb c) object_prototype_keys = false.
Proof.
  destruct c as [|ch c]; [congruence|]. intros Hd _.
  cbn in Hd. apply andb_true_iff in Hd as [Hch _].
  destruct ch as [[|] [|] [|] [|] [|] [|] [|] [|]];
    try discriminate Hch; reflexivity.
Qed.

(** For a target that names its channel by digits (a raw snowflake, or
    ["channel:"] followed by digits), the webhook URL of a returned identity
    is a non-empty string of the configuration: the channel's own entry in
    [responseWebhooks] if it has one, the default [responseWebhook]
    otherwise. *)
Theorem digit_channel_gets_configured_url (cfg : OpenClawConfig)
  (agentId : option string) (target c : string) (ident : AgentWebhookIdentity)
  (Hres : resolveAgentWebhook cfg agentId target = Some ident)
  (Hchan : extractChannelId target = Some c)
  (Hdigits : all_digits c = true) :
  exists id agent discord u,
    agentId = Some id /\ find_agent cfg id = Some agent /\
    agent_discord agent = Some discord /\
    webhookUrl ident = MStr u /\ u <> "" /\
    match responseWebhooks discord with
    | Some r =>
        if truthy_str c
        then match own_get r c with
             | Some v => u = v
             | None => responseWebhook discord = Some u
             end
        else responseWebhook discord = Some u
    | None => responseWebhook discord = Some u
    end.
Proof.
  unfold resolveAgentWebhook in Hres.
  destruct agentId as [id|]; [|discriminate].
  destruct (truthy_str id) eqn:Hid; [|discriminate]. cbn [negb] in Hres.
  destruct (find_agent cfg id) as [agent|] eqn:Hf; [|discriminate].
  destruct (agent_discord agent) as [discord|] eqn:Hd; [|discriminate].
  rewrite Hchan in Hres. cbv zeta in Hres.
  exists id, agent, discord.
  assert (Hfin : forall (url : JsMember) (P : string -> Prop),
            (if negb (truthy_member url) then None
             else Some (mkWebhookIdentity url (webhook_username agent)
                    (nullish match agent_identity agent with
                             | Some i => identity_avatar i | None => None end
                             (responseWebhookAvatar discord)) None)) = Some ident ->
            (forall u, url = MStr u -> P u) ->
            (exists k, url = MInherited k) \/
            exists u, webhookUrl ident = MStr u /\ u <> "" /\ P u).
  { intros url P Hr HP. destruct url as [u|k]; [|left; eauto].
    right. cbn in Hr. unfold truthy_str in Hr.
    destruct (u =? "")%string eqn:Hu; cbn in Hr; [discriminate|].
    injection Hr as <-. exists u. cbn.
    apply String.eqb_neq in Hu. auto. }
  destruct (responseWebhooks discord) as [r|] eqn:Hr.
  - destruct (truthy_str c) eqn:Hc.
    + unfold record_get in Hres.
      destruct (own_get r c) as [v|] eqn:Hv.
      * cbn [nullish] in Hres.
        destruct (Hfin _ (fun u => u = v) Hres) as [[k Hk] | (u & Hu1 & Hu2 & Hu3)];
          [congruence | discriminate Hk | eauto 10].
      * rewrite digits_are_not_prototype_keys in Hres;
          [|exact Hdigits | intros ->; discriminate Hc].
        cbn [nullish] in Hres.
        destruct (responseWebhook discord) as [d|]; [|discriminate].
        cbn [option_map] in Hres.
        destruct (Hfin _ (fun u => Some d = Some u) Hres)
          as [[k Hk] | (u & Hu1 & Hu2 & Hu3)];
          [congruence | discriminate Hk | eauto 10].
    + cbn [nullish] in Hres.
      destruct (responseWebhook discord) as [d|]; [|discriminate].
      cbn [option_map] in Hres.
      destruct (Hfin _ (fun u => Some d = Some u) Hres)
        as [[k Hk] | (u & Hu1 & Hu2 & Hu3)];
        [congruence | discriminate Hk | eauto 10].
  - assert (Hres' :
      match nullish None (option_map MStr (responseWebhook discord)) with
      | Some url =>
          if negb (truthy_member url) then None
          else Some (mkWebhookIdentity url (webhook_username agent)
                 (nullish match agent_identity agent with
                          | Some i => identity_avatar i | None => None end
                          (responseWebhookAvatar discord)) None)
      | None => None
      end = Some ident).
    { destruct (truthy_str c); exact Hres. }
    cbn [nullish] in Hres'.
    destruct (responseWebhook discord) as [d|]; [|discriminate].
    cbn [option_map] in Hres'.
    destruct (Hfin _ (fun u => Some d = Some u) Hres')
      as [[k Hk] | (u & Hu1 & Hu2 & Hu3)];
      [congruence | discriminate Hk | eauto 10].
Qed.

(** ** [resolveAgentWebhookAsync] *)

(** Whenever the direct lookup succeeds, or the channel fetch throws, the
    async resolver returns exactly what the direct lookup returns: the fetch
    outcome plays no part in a direct hit, and a failed fetch never produces
    an identity of its own. *)
Theorem async_agrees_with_direct (fetch : string -> FetchOutcome)
  (cfg : OpenClawConfig) (agentId : option string) (target : string)
  (H : resolveAgentWebhook cfg agentId target <> None \/
       forall c, fetch c = FetchThrows) :
  resolveAgentWebhookAsync fetch cfg agentId target
  = resolveAgentWebhook cfg agentId target.
Proof.
  unfold resolveAgentWebhookAsync.
  destruct (resolveAgentWebhook cfg agentId target) as [r|]; [reflexivity|].
  destruct H as [H | H]; [congruence|].
  destruct (extractChannelId target) as [c|]; [|reflexivity].
  destruct (truthy_str c); cbn [negb]; [|reflexivity].
  now rewrite H.
Qed.

(** An identity from the async resolver carries a [threadId] exactly when it
    came through the parent channel: then the direct lookup had failed, the
    [threadId] is the non-empty channel id extracted from the target, the
    fetch returned a non-empty [parent_id], and webhook, name and avatar are
    those the direct lookup gives for that parent.  Without a [threadId] it
    is the direct lookup's own result. *)
Theorem async_result_origin (fetch : string -> FetchOutcome)
  (cfg : OpenClawConfig) (agentId : option string) (target : string)
  (r : AgentWebhookIdentity)
  (H : resolveAgentWebhookAsync fetch cfg agentId target = Some r) :
  (threadId r = None /\ resolveAgentWebhook cfg agentId target = Some r) \/
  (resolveAgentWebhook cfg agentId target = None /\
   exists c p pr,
     threadId r = Some c /\ c <> "" /\ p <> "" /\
     extractChannelId target = Some c /\
     fetch c = FetchedChannel (Some p) /\
     resolveAgentWebhook cfg agentId p = Some pr /\
     webhookUrl r = webhookUrl pr /\ username r = username pr /\
     avatarUrl r = avatarUrl pr).
Proof.
  unfold resolveAgentWebhookAsync in H.
  destruct (resolveAgentWebhook cfg agentId target) as [d|] eqn:Hd.
  - injection H as <-. left. split; [|reflexivity].
    now destruct (resolveAgentWebhook_inv _ _ _ _ Hd)
      as (_ & _ & _ & _ & _ & _ & _ & _ & _ & _ & Ht).
  - right. split; [reflexivity|].
    destruct (extractChannelId target) as [c|]; [|discriminate].
    destruct (truthy_str c) eqn:Hc; cbn [negb] in H; [|discriminate].
    destruct (fetch c) as [|[p|]] eqn:Hf; try discriminate.
    destruct (truthy_str p) eqn:Hp; cbn [negb] in H; [|discriminate].
    destruct (resolveAgentWebhook cfg agentId p) as [pr|] eqn:Hpr; [|discriminate].
    injection H as <-. exists c, p, pr. cbn.
    repeat split; auto.
    + intros ->. discriminate Hc.
    + intros ->. discriminate Hp.
Qed.

(** ** Instances on the example configuration *)

Lemma resolved_identity_is_usable_witness :
  resolveAgentWebhook demo_config (Some "seven") "channel:123456789012345678"
  = Some (mkWebhookIdentity (MStr "https://discord.com/api/webhooks/chan")
            ("Seven " ++ middle_dot ++ " Senior Engineer")%string
            (Some "https://example.com/avatar.png") None) /\
  MStr "https://discord.com/api/webhooks/chan" <> MStr "".
Proof.
  split; [reflexivity|].
  apply (resolved_identity_is_usable demo_config (Some "seven")
           "channel:123456789012345678" _ eq_refl).
Defined.

Lemma identity_does_not_depend_on_target_witness :
  resolveAgentWebhook demo_config (Some "seven") "123456789012345678"
  = Some (mkWebhookIdentity (MStr "https://discord.com/api/webhooks/chan")
            ("Seven " ++ middle_dot ++ " Senior Engineer")%string
            (Some "https://example.com/avatar.png") None) /\
  resolveAgentWebhook demo_config (Some "seven") "general"
  = Some (mkWebhookIdentity (MStr "https://discord.com/api/webhooks/default")
            ("Seven " ++ middle_dot ++ " Senior Engineer")%string
            (Some "https://example.com/avatar.png") None) /\
  ("Seven " ++ middle_dot ++ " Senior Engineer")%string
  = ("Seven " ++ middle_dot ++ " Senior Engineer")%string.
Proof.
  split; [reflexivity|]. split; [reflexivity|].
  apply (identity_does_not_depend_on_target demo_config (Some "seven")
           "123456789012345678" "general" _ _ eq_refl eq_refl).
Defined.

Lemma per_channel_entry_decides_witness :
  "seven" <> "" /\
  find_agent demo_config "seven" = Some demo_agent /\
  agent_discord demo_agent = Some demo_discord /\
  extractChannelId "channel:223456789012345678" = Some "223456789012345678" /\
  "223456789012345678" <> "" /\
  own_get [("123456789012345678", "https://discord.com/api/webhooks/chan");
           ("223456789012345678", "")] "223456789012345678" = Some "" /\
  resolveAgentWebhook demo_config (Some "seven") "channel:223456789012345678" = None.
Proof.
  assert (H1 : "seven" <> "") by discriminate.
  assert (H2 : "223456789012345678" <> "") by discriminate.
  split; [exact H1|]. split; [reflexivity|]. split; [reflexivity|].
  split; [reflexivity|]. split; [exact H2|]. split; [reflexivity|].
  apply (per_channel_entry_decides demo_config "seven"
           "channel:223456789012345678" "223456789012345678" ""
           demo_agent demo_discord _ H1 eq_refl eq_refl eq_refl H2 eq_refl eq_refl).
  reflexivity.
Defined.

Lemma digit_channel_gets_configured_url_witness :
  extractChannelId "123456789012345678" = Some "123456789012345678" /\
  all_digits "123456789012345678" = true /\
  exists id agent discord u,
    Some "seven" = Some id /\ find_agent demo_config id = Some agent /\
    agent_discord agent = Some discord /\
    MStr "https://discord.com/api/webhooks/chan" = MStr u /\ u <> "" /\
    match responseWebhooks discord with
    | Some r =>
        if truthy_str "123456789012345678"
        then match own_get r "123456789012345678" with
             | Some v => u = v
             | None => responseWebhook discord = Some u
             end
        else responseWebhook discord = Some u
    | None => responseWebhook discord = Some u
    end.
Proof.
  split; [reflexivity|]. split; [reflexivity|].
  apply (digit_channel_gets_configured_url demo_config (Some "seven")
           "123456789012345678" "123456789012345678" _ eq_refl eq_refl eq_refl).
Defined.

Lemma async_agrees_with_direct_witness :
  (forall c : string, (fun _ : string => FetchThrows) c = FetchThrows) /\
  resolveAgentWebhookAsync (fun _ => FetchThrows) demo_config (Some "nobody")
                           "channel:323456789012345678"
  = resolveAgentWebhook demo_config (Some "nobody") "channel:323456789012345678".
Proof.
  split; [reflexivity|].
  apply (async_agrees_with_direct (fun _ => FetchThrows) demo_config
           (Some "nobody") "channel:323456789012345678").
  right. reflexivity.
Defined.

Lemma async_result_origin_witness :
  resolveAgentWebhookAsync (fetch_parent "123456789012345678") demo_config
                           (Some "seven") "channel:223456789012345678"
  = Some (mkWebhookIdentity (MStr "https://discord.com/api/webhooks/chan")
            ("Seven " ++ middle_dot ++ " Senior Engineer")%string
            (Some "https://example.com/avatar.png")
            (Some "223456789012345678")) /\
  ((None = Some "223456789012345678" -> False) ->
   resolveAgentWebhook demo_config (Some "seven") "channel:223456789012345678"
   = None).
Proof.
  split; [reflexivity|]. intros Hne.
  destruct (async_result_origin (fetch_parent "123456789012345678") demo_config
              (Some "seven") "channel:223456789012345678" _ eq_refl)
    as [[Ht _] | [Hd _]].
  - discriminate Ht.
  - exact Hd.
Defined.

(** ** Instances of the further watchdog properties *)

Lemma start_then_stop_restores_witness :
  quiet (boot default_opts (demo_gateway true) 0) /\
  gateway (stop (start (boot default_opts (demo_gateway true) 0)))
  = demo_gateway true.
Proof.
  assert (Hq : quiet (boot default_opts (demo_gateway true) 0))
    by (unfold quiet; cbn; auto).
  split; [exact Hq|].
  apply (start_then_stop_restores (boot default_opts (demo_gateway true) 0) Hq).
Defined.

Lemma emit_other_name_is_ignored_witness :
  tracked first_stale /\ "ready" <> "debug" /\ "ready" <> "metrics" /\
  emit "ready" first_stale = first_stale.
Proof.
  assert (Ht : tracked first_stale) by (unfold tracked; cbn; repeat split; discriminate).
  assert (Hd : "ready" <> "debug") by discriminate.
  assert (Hm : "ready" <> "metrics") by discriminate.
  split; [exact Ht|]. split; [exact Hd|]. split; [exact Hm|].
  apply (emit_other_name_is_ignored first_stale "ready" Ht Hd Hm).
Defined.



Lemma check_suppresses_retrigger_witness :
  isConnected (gateway first_stale) = true /\
  staleThresholdMs (opts (wd first_stale))
  <= Date_now first_stale - lastEventAt (wd first_stale) /\
  Z.of_N 60000 < staleThresholdMs (opts (wd first_stale)) /\
  check (step (Elapse 60000) (check first_stale))
  = step (Elapse 60000) (check first_stale).
Proof.
  assert (Hs : staleThresholdMs (opts (wd first_stale))
               <= Date_now first_stale - lastEventAt (wd first_stale))
    by (vm_compute; discriminate).
  assert (Hd : Z.of_N 60000 < staleThresholdMs (opts (wd first_stale)))
    by reflexivity.
  split; [reflexivity|]. split; [exact Hs|]. split; [exact Hd|].
  apply (check_suppresses_retrigger first_stale 60000 eq_refl Hs Hd).
Defined.

Lemma resumes_precede_fresh_witness :
  isConnected (gateway first_stale) = true /\
  lastEventAt (wd first_stale) <= clock first_stale /\
  Z.of_N (consecutiveStale (wd first_stale)) + Z.of_nat 2 + 1
  = maxStaleBeforeFreshConnect (opts (wd first_stale)) /\
  ops (Nat.iter 2 silent_round first_stale)
  = ops first_stale ++ repeat OpDisconnect 2.
Proof.
  assert (Hl : lastEventAt (wd first_stale) <= clock first_stale)
    by (vm_compute; discriminate).
  split; [reflexivity|]. split; [exact Hl|]. split; [reflexivity|].
  apply (resumes_precede_fresh first_stale 2 eq_refl Hl eq_refl).
Defined.

Lemma disconnected_checks_skip_resume_witness :
  isConnected (gateway silent_disconnected) = false /\
  staleThresholdMs (opts (wd silent_disconnected))
  <= Date_now silent_disconnected - lastEventAt (wd silent_disconnected) /\
  maxStaleBeforeFreshConnect (opts (wd silent_disconnected))
  <= Z.of_N (consecutiveStale (wd silent_disconnected)) + Z.of_nat 2 + 1 /\
  ops (Nat.iter 2 (late_check 60000) silent_disconnected)
  = ops silent_disconnected.
Proof.
  assert (Hs : staleThresholdMs (opts (wd silent_disconnected))
               <= Date_now silent_disconnected
                  - lastEventAt (wd silent_disconnected))
    by (vm_compute; discriminate).
  assert (Hm : maxStaleBeforeFreshConnect (opts (wd silent_disconnected))
               <= Z.of_N (consecutiveStale (wd silent_disconnected))
                  + Z.of_nat 2 + 1)
    by (vm_compute; discriminate).
  split; [reflexivity|]. split; [exact Hs|]. split; [exact Hm|].
  apply (disconnected_checks_skip_resume silent_disconnected 60000 2
           eq_refl Hs Hm).
Defined.

(** * Properties of the cross-session memory plugin *)

(** ** Pruning *)

(** Pruning again at a later time gives what pruning once at that later time
    gives: the cache can be pruned on every read and every write without
    losing anything a single pruning would keep.  A message survives exactly
    while its timestamp is strictly above [now - maxAgeMs]. *)
Theorem prune_again_later (now1 now2 maxAgeMs : Z) (cache : MessageCache)
  (Hlater : now1 <= now2) :
  pruneCache now2 (pruneCache now1 cache maxAgeMs) maxAgeMs
  = pruneCache now2 cache maxAgeMs /\
  forall m, In m (messages (pruneCache now2 cache maxAgeMs)) <->
            In m (messages cache) /\ now2 - timestamp m < maxAgeMs.
Proof.
  unfold pruneCache. cbn. split.
  - f_equal. induction (messages cache) as [|m l IH]; [reflexivity|].
    cbn. destruct (now1 - maxAgeMs <? timestamp m) eqn:H1; cbn.
    + destruct (now2 - maxAgeMs <? timestamp m); [f_equal|]; exact IH.
    + destruct (now2 - maxAgeMs <? timestamp m) eqn:H2; [|exact IH].
      apply Z.ltb_lt in H2. apply Z.ltb_ge in H1. lia.
  - intros m. rewrite filter_In, Z.ltb_lt. intuition lia.
Qed.

(** ** The cache written by [message_received] *)

Lemma js_slice_from_last {A : Type} (n : Z) (l : list A) :
  0 < n -> n < Z.of_nat (List.length l) ->
  js_slice_from (- n) l = skipn (List.length l - Z.to_nat n) l /\
  Z.of_nat (List.length (js_slice_from (- n) l)) = n.
Proof.
  intros Hn Hl. unfold js_slice_from.
  assert (E : (- n <? 0) = true) by (apply Z.ltb_lt; lia). rewrite E.
  replace (Z.to_nat (Z.max (Z.of_nat (List.length l) + - n) 0))
    with (List.length l - Z.to_nat n)%nat by lia.
  split; [reflexivity|]. rewrite length_skipn. lia.
Qed.

Lemma js_slice_from_zero {A : Type} (l : list A) : js_slice_from (- 0) l = l.
Proof.
  unfold js_slice_from. cbn. now destruct (List.length l).
Qed.

Lemma skipn_snoc_last {A : Type} (k : nat) (l : list A) (x : A) :
  (k <= List.length l)%nat -> skipn k (l ++ [x]) = skipn k l ++ [x].
Proof.
  intros H. rewrite skipn_app.
  replace (k - List.length l)%nat with 0%nat by lia. reflexivity.
Qed.

(** Every way through [message_received] that saves. *)
Lemma message_received_saved_inv (cfg : OpenClawConfig) (pc : PluginConfig)
  (fs : string -> option MessageCache) (now : Z) (event : MessageEvent)
  (conversationId : option string) (dir : string) (cache : MessageCache) :
  message_received cfg pc fs now event conversationId = Saved dir cache ->
  exists raw m,
    ev_content event = Some raw /\
    js_trim raw <> "" /\
    String.prefix "/" (js_trim raw) = false /\
    dir <> "" /\
    nullish (option_map snd (findAgentByChannel cfg conversationId))
            (default_workspace cfg) = Some dir /\
    (forall c, conversationId = Some c -> c <> "" ->
               str_mem c (excludeChannels pc) = false /\
               forall inc, pc_includeChannels pc = Some inc -> str_mem c inc = true) /\
    content m = js_trim raw /\
    timestamp m = from_option now (ev_timestamp event) /\
    msg_channelId m = conversationId /\
    msg_from m = ev_from event /\
    lastPruned cache = now /\
    let pushed :=
      messages (pruneCache now (loadCache fs dir now) (cacheMinutes pc * 60 * 1000))
      ++ [m] in
    messages cache =
      if maxMessages pc * 3 <? Z.of_nat (List.length pushed)
      then js_slice_from (- (maxMessages pc * 3)) pushed
      else pushed.
Proof.
  unfold message_received. intros H.
  destruct (ev_content event) as [raw|]; [|discriminate].
  cbv zeta in H.
  destruct (truthy_str (js_trim raw)) eqn:Ht; cbn [negb] in H; [|discriminate].
  destruct (String.prefix "/" (js_trim raw)) eqn:Hp; [discriminate|].
  destruct (nullish (option_map snd (findAgentByChannel cfg conversationId))
                    (default_workspace cfg)) as [d|] eqn:Hw; [|discriminate].
  destruct (truthy_str d) eqn:Hd; cbn [negb] in H; [|discriminate].
  match type of H with
  | (if ?f then _ else _) = _ => destruct f eqn:Hf; [discriminate|]
  end.
  injection H as <- <-.
  assert (Hne : js_trim raw <> "").
  { intros E. rewrite E in Ht. discriminate Ht. }
  assert (Hdir : d <> "").
  { intros ->. discriminate Hd. }
  assert (Hfilter : forall c, conversationId = Some c -> c <> "" ->
            str_mem c (excludeChannels pc) = false /\
            forall inc, pc_includeChannels pc = Some inc -> str_mem c inc = true).
  { intros c -> Hc. unfold truthy_str in Hf.
    apply String.eqb_neq in Hc. rewrite Hc in Hf. cbn in Hf.
    apply orb_false_iff in Hf as [Hex Hin]. split; [exact Hex|].
    intros inc Hinc. rewrite Hinc in Hin. now apply negb_false_iff in Hin. }
  match goal with |- context [_ ++ [?M]] => exists raw, M end.
  split; [reflexivity|]. split; [exact Hne|]. split; [exact Hp|].
  split; [exact Hdir|]. split; [reflexivity|]. split; [exact Hfilter|].
  cbn. auto 10.
Qed.

(** What [message_received] saves is never blank, never a command (text that
    starts with "/" once trimmed), never destined for an empty workspace
    path, and never from a channel that is excluded or, when an include list
    is configured, missing from it. *)
Theorem saved_only_when_allowed (cfg : OpenClawConfig) (pc : PluginConfig)
  (fs : string -> option MessageCache) (now : Z) (event : MessageEvent)
  (conversationId : option string) (dir : string) (cache : MessageCache)
  (H : message_received cfg pc fs now event conversationId = Saved dir cache) :
  dir <> "" /\
  (exists raw, ev_content event = Some raw /\ js_trim raw <> "" /\
               String.prefix "/" (js_trim raw) = false) /\
  (forall c, conversationId = Some c -> c <> "" ->
             str_mem c (excludeChannels pc) = false /\
             forall inc, pc_includeChannels pc = Some inc -> str_mem c inc = true).
Proof.
  destruct (message_received_saved_inv _ _ _ _ _ _ _ _ H)
    as (raw & m & Hc & Ht & Hp & Hd & _ & Hf & _).
  split; [exact Hd|]. split; [|exact Hf].
  exists raw. auto.
Qed.

(** With a positive [maxMessages], the saved cache never holds more than
    [maxMessages * 3] messages; it is the tail of the pruned cache followed
    by the new message, whose text is the trimmed text and whose timestamp
    is the event's own when it has one. *)
Theorem saved_cache_is_capped (cfg : OpenClawConfig) (pc : PluginConfig)
  (fs : string -> option MessageCache) (now : Z) (event : MessageEvent)
  (conversationId : option string) (dir : string) (cache : MessageCache)
  (H : message_received cfg pc fs now event conversationId = Saved dir cache)
  (Hpos : 0 < maxMessages pc) :
  Z.of_nat (List.length (messages cache)) <= maxMessages pc * 3 /\
  exists k raw m,
    messages cache =
      skipn k (messages (pruneCache now (loadCache fs dir now)
                                    (cacheMinutes pc * 60 * 1000))) ++ [m] /\
    ev_content event = Some raw /\ content m = js_trim raw /\
    timestamp m = from_option now (ev_timestamp event).
Proof.
  destruct (message_received_saved_inv _ _ _ _ _ _ _ _ H)
    as (raw & m & Hc & _ & _ & _ & _ & _ & Hcm & Htm & _ & _ & _ & Hm).
  cbv zeta in Hm.
  set (old := messages (pruneCache now (loadCache fs dir now)
                                   (cacheMinutes pc * 60 * 1000))) in *.
  destruct (maxMessages pc * 3 <? Z.of_nat (List.length (old ++ [m]))) eqn:Hcap.
  - apply Z.ltb_lt in Hcap.
    destruct (js_slice_from_last (maxMessages pc * 3) (old ++ [m])) as [Hs Hl];
      [lia | exact Hcap |].
    rewrite <- Hm in Hl. split; [lia|].
    rewrite Hs, skipn_snoc_last in Hm by (rewrite length_app; cbn; lia).
    eexists _, raw, m. eauto.
  - apply Z.ltb_ge in Hcap. rewrite Hm. split; [exact Hcap|].
    exists 0%nat, raw, m. auto.
Qed.

(** With [maxMessages] set to 0 the cap never applies: [slice(-0)] keeps the
    whole array, so the saved cache is the entire pruned cache followed by
    the new message, however long that is. *)
Theorem zero_maxMessages_never_trims (cfg : OpenClawConfig) (pc : PluginConfig)
  (fs : string -> option MessageCache) (now : Z) (event : MessageEvent)
  (conversationId : option string) (dir : string) (cache : MessageCache)
  (H : message_received cfg pc fs now event conversationId = Saved dir cache)
  (Hzero : maxMessages pc = 0) :
  exists m,
    messages cache =
      messages (pruneCache now (loadCache fs dir now)
                           (cacheMinutes pc * 60 * 1000)) ++ [m].
Proof.
  destruct (message_received_saved_inv _ _ _ _ _ _ _ _ H)
    as (raw & m & _ & _ & _ & _ & _ & _ & _ & _ & _ & _ & _ & Hm).
  cbv zeta in Hm. rewrite Hzero in Hm. cbn [Z.mul] in Hm.
  rewrite js_slice_from_zero in Hm. exists m.
  now destruct (0 <? _) in Hm.
Qed.

(** A message that arrives without a [conversationId] is not subject to the
    channel filters: if a default workspace is configured it is cached there
    even when [includeChannels] is set. *)
Theorem unknown_channel_bypasses_filters (cfg : OpenClawConfig) (pc : PluginConfig)
  (fs : string -> option MessageCache) (now : Z) (event : MessageEvent)
  (raw dir : string)
  (Hraw : ev_content event = Some raw)
  (Htext : js_trim raw <> "")
  (Hcmd : String.prefix "/" (js_trim raw) = false)
  (Hws : default_workspace cfg = Some dir)
  (Hdir : dir <> "") :
  exists cache, message_received cfg pc fs now event None = Saved dir cache.
Proof.
  unfold message_received. rewrite Hraw. cbv zeta. unfold truthy_str.
  apply String.eqb_neq in Htext, Hdir. rewrite Htext, Hcmd. cbn.
  rewrite Hws. cbn. rewrite Hdir. cbn. eexists. reflexivity.
Qed.

(** ** The context injected by [before_agent_start] *)

Lemma take_within_budget_prefix (budget : Z) (lines : list string) (total : Z) :
  exists k,
    (k <= List.length lines)%nat /\
    take_within_budget budget total lines = firstn k lines /\
    (k <> 0%nat -> total + total_chars (firstn k lines) <= budget) /\
    ((k < List.length lines)%nat ->
     budget < total + total_chars (firstn (S k) lines)).
Proof.
  revert total. induction lines as [|line rest IH]; intros total.
  - exists 0%nat. cbn. repeat split; try lia; congruence.
  - cbn [take_within_budget].
    destruct (budget <? total + Z.of_nat (String.length line)) eqn:Hb.
    + apply Z.ltb_lt in Hb. exists 0%nat. cbn. repeat split; try lia; congruence.
    + apply Z.ltb_ge in Hb.
      destruct (IH (total + Z.of_nat (String.length line)))
        as (k & Hk & Ht & Hfit & Hnext).
      exists (S k). cbn [firstn List.length total_chars fold_right].
      repeat split.
      * lia.
      * now rewrite Ht.
      * intros _. destruct k as [|k]; [cbn; lia|].
        specialize (Hfit ltac:(lia)). unfold total_chars in Hfit. lia.
      * intros Hlt. specialize (Hnext ltac:(lia)).
        unfold total_chars in Hnext. cbn [firstn fold_right] in Hnext |- *. lia.
Qed.

(** The injected lines are the longest run of candidates, taken oldest
    first, whose lengths add up to at most [maxChars]: the loop stops at the
    first line that does not fit, so what is left out when the budget is
    short are the newest messages. *)
Theorem formatted_messages_longest_prefix (pc : PluginConfig) (now : Z)
  (current : option string) (cache : MessageCache) :
  let candidates := recent_messages pc now current cache in
  let lines := formatted_messages pc now current cache in
  exists k,
    (k <= List.length candidates)%nat /\
    lines = map (format_line now) (firstn k candidates) /\
    (lines <> [] -> total_chars lines <= maxChars pc) /\
    ((k < List.length candidates)%nat ->
     maxChars pc
     < total_chars (map (format_line now) (firstn (S k) candidates))).
Proof.
  cbv zeta. unfold formatted_messages.
  destruct (take_within_budget_prefix (maxChars pc)
              (map (format_line now) (recent_messages pc now current cache)) 0)
    as (k & Hk & Ht & Hfit & Hnext).
  rewrite length_map in Hk, Hnext. rewrite firstn_map in Ht, Hfit.
  rewrite firstn_map in Hnext.
  exists k. split; [exact Hk|]. split; [exact Ht|]. split.
  - intros Hne. rewrite Ht.
    destruct k as [|k]; [now rewrite Ht in Hne|].
    specialize (Hfit ltac:(lia)). lia.
  - intros Hlt. specialize (Hnext Hlt). lia.
Qed.

Lemma insert_by_timestamp_In (m x : CachedMessage) (l : list CachedMessage) :
  In x (insert_by_timestamp m l) <-> x = m \/ In x l.
Proof.
  induction l as [|y l IH]; cbn; [intuition|].
  destruct (timestamp m <=? timestamp y); cbn; [intuition|].
  rewrite IH. intuition.
Qed.

Lemma sort_by_timestamp_In (x : CachedMessage) (l : list CachedMessage) :
  In x (sort_by_timestamp l) <-> In x l.
Proof.
  induction l as [|y l IH]; [reflexivity|].
  change (sort_by_timestamp (y :: l))
    with (insert_by_timestamp y (sort_by_timestamp l)).
  rewrite insert_by_timestamp_In, IH. cbn. intuition.
Qed.

Lemma insert_by_timestamp_length (m : CachedMessage) (l : list CachedMessage) :
  List.length (insert_by_timestamp m l) = S (List.length l).
Proof.
  induction l as [|y l IH]; cbn; [reflexivity|].
  destruct (timestamp m <=? timestamp y); cbn; [reflexivity | now rewrite IH].
Qed.

Lemma sort_by_timestamp_length (l : list CachedMessage) :
  List.length (sort_by_timestamp l) = List.length l.
Proof.
  induction l as [|y l IH]; [reflexivity|].
  change (sort_by_timestamp (y :: l))
    with (insert_by_timestamp y (sort_by_timestamp l)).
  rewrite insert_by_timestamp_length, IH. reflexivity.
Qed.

Lemma js_slice_from_In {A : Type} (start : Z) (l : list A) (x : A) :
  In x (js_slice_from start l) -> In x l.
Proof.
  unfold js_slice_from. intros H.
  rewrite <- (firstn_skipn (Z.to_nat
    (if start <? 0 then Z.max (Z.of_nat (List.length l) + start) 0
     else Z.min start (Z.of_nat (List.length l)))) l).
  apply in_or_app. now right.
Qed.

(** Every message considered for injection is in the cache file, belongs to
    a session other than the current one, and is younger than the cache
    window of [cacheMinutes]. *)
Theorem candidates_are_recent_other_sessions (pc : PluginConfig) (now : Z)
  (current : option string) (cache : MessageCache) (m : CachedMessage)
  (H : In m (recent_messages pc now current cache)) :
  In m (messages cache) /\
  (forall k, current = Some k -> sessionKey m <> k) /\
  now - timestamp m < cacheMinutes pc * 60 * 1000.
Proof.
  unfold recent_messages in H. cbv zeta in H.
  apply js_slice_from_In in H. rewrite sort_by_timestamp_In in H.
  apply filter_In in H as [Hin Ho]. cbn in Hin.
  apply filter_In in Hin as [Hin Ht]. apply Z.ltb_lt in Ht.
  split; [exact Hin|]. split; [|lia].
  intros k ->. cbn in Ho. apply negb_true_iff in Ho.
  now apply String.eqb_neq in Ho.
Qed.

(** A positive [maxMessages] bounds the number of candidates.  Set to 0 it
    bounds nothing: [slice(-0)] is the whole array, so every recent message
    of another session is a candidate. *)
Theorem candidate_count (pc : PluginConfig) (now : Z)
  (current : option string) (cache : MessageCache) :
  let others := filter (other_session current)
                  (messages (pruneCache now cache (cacheMinutes pc * 60 * 1000))) in
  (0 < maxMessages pc ->
   Z.of_nat (List.length (recent_messages pc now current cache)) <= maxMessages pc) /\
  (maxMessages pc = 0 ->
   recent_messages pc now current cache = sort_by_timestamp others).
Proof.
  cbv zeta. unfold recent_messages. cbv zeta. split.
  - intros Hpos. unfold js_slice_from.
    assert (E : (- maxMessages pc <? 0) = true) by (apply Z.ltb_lt; lia).
    rewrite E, length_skipn. lia.
  - intros ->. apply js_slice_from_zero.
Qed.

(** ** Formatting *)

Lemma str_length_app (a b : string) :
  String.length (a ++ b) = (String.length a + String.length b)%nat.
Proof.
  induction a as [|c a IH]; cbn; [reflexivity | now rewrite IH].
Qed.

Lemma str_take_length (n : nat) (s : string) :
  String.length (str_take n s) = Nat.min n (String.length s).
Proof.
  revert s. induction n as [|n IH]; intros [|c s]; cbn; auto.
Qed.

Lemma str_take_is_prefix (n : nat) (s : string) :
  String.prefix (str_take n s) s = true.
Proof.
  revert s. induction n as [|n IH]; intros [|c s]; cbn; auto.
  destruct (ascii_dec c c); [apply IH | congruence].
Qed.

(** The message text shown in a line is never longer than 200 code units: a
    text of up to 200 is shown whole, a longer one is cut to its first 197
    followed by three dots, exactly 200 in all. *)
Theorem display_content_bounded (c : string) :
  (String.length (display_content c) <= 200)%nat /\
  ((String.length c <= 200)%nat -> display_content c = c) /\
  ((200 < String.length c)%nat ->
   display_content c = (str_take 197 c ++ "...")%string /\
   String.length (display_content c) = 200%nat /\
   String.prefix (str_take 197 c) c = true).
Proof.
  unfold display_content.
  destruct (200 <? String.length c)%nat eqn:H.
  - apply Nat.ltb_lt in H.
    assert (L : String.length (str_take 197 c ++ "...") = 200%nat).
    { rewrite str_length_app, str_take_length.
      change (String.length "...") with 3%nat. lia. }
    split; [lia|]. split; [lia|]. intros _.
    split; [reflexivity|]. split; [exact L | apply str_take_is_prefix].
  - apply Nat.ltb_ge in H. split; [exact H|]. split; [reflexivity | lia].
Qed.

(** [formatAge] in terms of the age itself: below one minute (negative ages
    included) "just now"; then whole minutes up to 59, whole hours up to 23,
    and whole days, each the age divided by the length of the unit and
    rounded down. *)
Theorem formatAge_units (ms : Z) :
  (ms < 60000 -> formatAge ms = "just now") /\
  (60000 <= ms < 3600000 ->
   formatAge ms = (show_int (ms / 60000) ++ "m ago")%string /\
   1 <= ms / 60000 <= 59) /\
  (3600000 <= ms < 86400000 ->
   formatAge ms = (show_int (ms / 3600000) ++ "h ago")%string /\
   1 <= ms / 3600000 <= 23) /\
  (86400000 <= ms ->
   formatAge ms = (show_int (ms / 86400000) ++ "d ago")%string /\
   1 <= ms / 86400000).
Proof.
  unfold formatAge. cbv zeta.
  assert (Hh : ms / 60000 / 60 = ms / 3600000)
    by (rewrite Z.div_div by lia; reflexivity).
  assert (Hd : ms / 60000 / 60 / 24 = ms / 86400000)
    by (rewrite !Z.div_div by lia; reflexivity).
  assert (Hm1 : ms < 60000 <-> ms / 60000 < 1).
  { split; intros H.
    - apply Z.div_lt_upper_bound; lia.
    - destruct (Z_lt_le_dec ms 60000) as [|Hge]; [assumption|].
      assert (1 <= ms / 60000) by (apply Z.div_le_lower_bound; lia). lia. }
  assert (Hm60 : ms < 3600000 <-> ms / 60000 < 60).
  { split; intros H.
    - apply Z.div_lt_upper_bound; lia.
    - destruct (Z_lt_le_dec ms 3600000) as [|Hge]; [assumption|].
      assert (60 <= ms / 60000) by (apply Z.div_le_lower_bound; lia). lia. }
  assert (Hh24 : ms < 86400000 <-> ms / 3600000 < 24).
  { split; intros H.
    - apply Z.div_lt_upper_bound; lia.
    - destruct (Z_lt_le_dec ms 86400000) as [|Hge]; [assumption|].
      assert (24 <= ms / 3600000) by (apply Z.div_le_lower_bound; lia). lia. }
  repeat split.
  - intros H. apply Hm1 in H. apply Z.ltb_lt in H. now rewrite H.
  - destruct H as [H1 H2].
    assert (E1 : (ms / 60000 <? 1) = false) by (apply Z.ltb_ge; lia).
    assert (E2 : (ms / 60000 <? 60) = true) by (apply Z.ltb_lt; lia).
    now rewrite E1, E2.
  - lia.
  - lia.
  - destruct H as [H1 H2].
    assert (E1 : (ms / 60000 <? 1) = false) by (apply Z.ltb_ge; lia).
    assert (E2 : (ms / 60000 <? 60) = false) by (apply Z.ltb_ge; lia).
    assert (E3 : (ms / 60000 / 60 <? 24) = true) by (apply Z.ltb_lt; lia).
    now rewrite E1, E2, E3, Hh.
  - assert (1 <= ms / 3600000) by (apply Z.div_le_lower_bound; lia). lia.
  - lia.
  - assert (E1 : (ms / 60000 <? 1) = false) by (apply Z.ltb_ge; lia).
    assert (E2 : (ms / 60000 <? 60) = false) by (apply Z.ltb_ge; lia).
    assert (E3 : (ms / 60000 / 60 <? 24) = false) by (apply Z.ltb_ge; lia).
    now rewrite E1, E2, E3, Hd.
  - apply Z.div_le_lower_bound; lia.
Qed.

(** ** [findAgentByChannel] *)

Lemma agent_with_workspace_inv (cfg : OpenClawConfig) (agentId id w : string) :
  agent_with_workspace cfg agentId = Some (id, w) ->
  id = agentId /\ w <> "" /\
  exists a, find_agent cfg id = Some a /\ agent_workspace a = Some w.
Proof.
  unfold agent_with_workspace.
  destruct (find_agent cfg agentId) as [a|] eqn:Hf; [|discriminate].
  destruct (agent_workspace a) as [w'|] eqn:Hw; [|discriminate].
  destruct (truthy_str w') eqn:Ht; [|discriminate].
  intros [= <- <-]. split; [reflexivity|]. split.
  - intros ->. discriminate Ht.
  - exists a. auto.
Qed.

Lemma agent_from_bindings_inv (cfg : OpenClawConfig) (c : string)
  (bs : list Binding) (r : string * string) :
  agent_from_bindings cfg c bs = Some r ->
  exists b, In b bs /\ peer_is_channel b c = true /\
            agent_with_workspace cfg (binding_agentId b) = Some r.
Proof.
  induction bs as [|b bs IH]; cbn; [discriminate|].
  destruct (peer_is_channel b c) eqn:Hp.
  - destruct (agent_with_workspace cfg (binding_agentId b)) as [r'|] eqn:Ha.
    + intros [= <-]. exists b. auto.
    + intros H. destruct (IH H) as (b' & Hin & Hb). exists b'. auto.
  - intros H. destruct (IH H) as (b' & Hin & Hb). exists b'. auto.
Qed.

(** An agent that [findAgentByChannel] returns is an agent of the
    configuration with that id whose workspace is the returned, non-empty
    path; the channel id was non-empty; and the agent is named either by a
    binding whose peer is that channel or, when no such binding leads to an
    agent with a workspace, by the first entry of the channel's broadcast
    list. *)
Theorem findAgentByChannel_sound (cfg : OpenClawConfig)
  (channelId : option string) (id w : string)
  (H : findAgentByChannel cfg channelId = Some (id, w)) :
  w <> "" /\
  (exists a, find_agent cfg id = Some a /\ agent_workspace a = Some w) /\
  exists c, channelId = Some c /\ c <> "" /\
    ((exists b, In b (from_option [] (bindings cfg)) /\
                peer_is_channel b c = true /\ binding_agentId b = id) \/
     (agent_from_bindings cfg c (from_option [] (bindings cfg)) = None /\
      exists table rest, broadcast cfg = Some table /\
                         broadcast_get table c = Some (BArray (Some id :: rest)))).
Proof.
  unfold findAgentByChannel in H.
  destruct channelId as [c|]; [|discriminate].
  destruct (truthy_str c) eqn:Hc; cbn [negb] in H; [|discriminate].
  assert (Hne : c <> "") by (intros ->; discriminate Hc).
  destruct (agent_from_bindings cfg c (from_option [] (bindings cfg)))
    as [r|] eqn:Hb.
  - injection H as ->.
    destruct (agent_from_bindings_inv _ _ _ _ Hb) as (b & Hin & Hp & Ha).
    destruct (agent_with_workspace_inv _ _ _ _ Ha) as (Hid & Hw & Hag).
    split; [exact Hw|]. split; [exact Hag|].
    exists c. split; [reflexivity|]. split; [exact Hne|].
    left. exists b. auto.
  - unfold agent_from_broadcast in H.
    destruct (broadcast cfg) as [table|] eqn:Ht; [|discriminate].
    destruct (broadcast_get table c) as [[[|[first|] rest]|]|] eqn:Hg;
      try discriminate.
    destruct (agent_with_workspace_inv _ _ _ _ H) as (Hid & Hw & Hag).
    split; [exact Hw|]. split; [exact Hag|].
    exists c. split; [reflexivity|]. split; [exact Hne|].
    right. split; [exact Hb|]. exists table, rest. subst first. auto.
Qed.

(** ** The session key written by one hook and read by the other *)

Lemma match_channel_digits_eq (s : string) :
  match_channel_digits s =
  match channel_digits_here s with
  | Some d => Some d
  | None =>
      match s with
      | EmptyString => None
      | String _ s' => match_channel_digits s'
      end
  end.
Proof. destruct s; reflexivity. Qed.

Lemma prefix_app_inv (p q r : string) :
  String.prefix p (q ++ r) = true ->
  String.prefix p q = true \/
  exists p2, p = (q ++ p2)%string /\ p2 <> "" /\ String.prefix p2 r = true.
Proof.
  revert q. induction p as [|a p IH]; intros q H.
  - left. now destruct q.
  - destruct q as [|b q].
    + right. exists (String a p). cbn in H |- *. repeat split; [discriminate | exact H].
    + cbn [append String.prefix] in H |- *.
      destruct (ascii_dec a b) as [<-|]; [|discriminate].
      destruct (IH q H) as [Hl | (p2 & -> & Hne & Hp)]; [now left|].
      right. exists p2. auto.
Qed.

Lemma take_digits_all (c : string) : all_digits c = true -> take_digits c = c.
Proof.
  induction c as [|a c IH]; cbn; [reflexivity|].
  intros H. apply andb_true_iff in H as [Ha Hc]. rewrite Ha. now rewrite IH.
Qed.

Lemma take_digits_app_stop (q r : string) :
  take_digits q = "" -> take_digits r = "" -> take_digits (q ++ r) = "".
Proof.
  destruct q as [|a q]; cbn; [auto|].
  destruct (is_digit a); [discriminate | reflexivity].
Qed.

Lemma str_drop_app_long (n : nat) (q r : string) :
  (n <= String.length q)%nat -> str_drop n (q ++ r) = (str_drop n q ++ r)%string.
Proof.
  revert q. induction n as [|n IH]; intros q H; [reflexivity|].
  destruct q as [|a q]; cbn in H; [lia|]. cbn. apply IH. lia.
Qed.

Lemma prefix_length (p q : string) :
  String.prefix p q = true -> (String.length p <= String.length q)%nat.
Proof.
  revert q. induction p as [|a p IH]; intros q H; cbn; [lia|].
  destruct q as [|b q]; cbn in H; [discriminate|].
  destruct (ascii_dec a b); [|discriminate]. cbn. apply IH in H. lia.
Qed.

(** No match of [/channel:(\d+)/] can start inside [q] once [q] is followed
    by [":discord:channel:..."], unless one starts inside [q] alone. *)
Lemma no_match_across_boundary (q c : string) :
  channel_digits_here q = None ->
  channel_digits_here (q ++ ":discord:channel:" ++ c) = None.
Proof.
  unfold channel_digits_here. intros H.
  destruct (String.prefix "channel:" (q ++ ":discord:channel:" ++ c)) eqn:Hp;
    [|reflexivity].
  apply prefix_app_inv in Hp as [Hq | (p2 & Hsplit & Hne & Hp2)].
  - rewrite Hq in H.
    rewrite str_drop_app_long by (apply (prefix_length "channel:" q Hq)).
    destruct (truthy_str (take_digits (str_drop (String.length "channel:") q)))
      eqn:Ht; [discriminate|].
    unfold truthy_str in Ht. apply negb_false_iff, String.eqb_eq in Ht.
    now rewrite take_digits_app_stop.
  - do 8 (destruct q as [|? q];
          [cbn in Hsplit; subst p2;
           first [discriminate Hp2 | reflexivity]
          |cbn in Hsplit; injection Hsplit as <- Hsplit]).
    destruct q; cbn in Hsplit; [congruence | discriminate].
Qed.

Lemma match_channel_digits_app (q c : string) :
  match_channel_digits q = None ->
  match_channel_digits (q ++ ":discord:channel:" ++ c)
  = match_channel_digits (":discord:channel:" ++ c).
Proof.
  induction q as [|a q IH]; intros H; [reflexivity|].
  rewrite match_channel_digits_eq in H.
  destruct (channel_digits_here (String a q)) eqn:Hh; [discriminate|].
  rewrite match_channel_digits_eq.
  rewrite (no_match_across_boundary (String a q) c Hh).
  cbn [append]. apply IH, H.
Qed.

(** The channel a cached message shows in the injected context is the
    channel it was received in: from the session key that [message_received]
    builds for an agent and a numeric channel id, the regexp that
    [before_agent_start] applies extracts that same channel id, provided the
    agent id does not itself contain ["channel:"] followed by a digit. *)
Theorem session_key_round_trip (id c : string)
  (Hdigits : all_digits c = true)
  (Hc : c <> "")
  (Hid : match_channel_digits id = None) :
  match_channel_digits ("agent:" ++ id ++ ":discord:channel:" ++ c) = Some c.
Proof.
  remember (":discord:channel:" ++ c)%string as r eqn:Hr.
  do 6 (rewrite match_channel_digits_eq; cbn [append];
        match goal with
        | |- context [channel_digits_here ?s] =>
            change (channel_digits_here s) with (@None string)
        end; cbv iota).
  subst r. rewrite (match_channel_digits_app id c Hid).
  do 9 (rewrite match_channel_digits_eq; cbn [append];
        match goal with
        | |- context [channel_digits_here ?s] =>
            change (channel_digits_here s) with (@None string)
        end; cbv iota).
  rewrite match_channel_digits_eq.
  unfold channel_digits_here.
  change (String "c" (String "h" (String "a" (String "n" (String "n"
            (String "e" (String "l" (String ":" c))))))))
    with ("channel:" ++ c)%string.
  rewrite prefix_app, (str_drop_app "channel:" c).
  rewrite (take_digits_all c Hdigits). unfold truthy_str.
  apply String.eqb_neq in Hc. now rewrite Hc.
Qed.

(** * Properties of the send paths *)

(** ** The outbound adapter *)


(** ** Reply delivery *)

Lemma send_chunks_later (params : DeliveryParams) (replyTo : option string)
  (chunks : list string) :
  Forall (fun s => ws_replyTo s = None /\ ws_content s <> "" /\ ws_mediaUrl s = None)
         (send_chunks params replyTo false chunks).
Proof.
  induction chunks as [|chunk rest IH]; cbn; [constructor|].
  destruct (truthy_str (js_trim chunk)) eqn:Ht; cbn; [|exact IH].
  constructor; [|exact IH]. cbn. repeat split.
  intros E. rewrite E in Ht. discriminate Ht.
Qed.

Lemma send_chunks_first (params : DeliveryParams) (replyTo : option string)
  (chunks : list string) :
  Forall (fun s => ws_replyTo s = None) (tl (send_chunks params replyTo true chunks)) /\
  (forall s, hd_error (send_chunks params replyTo true chunks) = Some s ->
             ws_replyTo s = replyTo) /\
  Forall (fun s => ws_content s <> "" /\ ws_mediaUrl s = None)
         (send_chunks params replyTo true chunks).
Proof.
  induction chunks as [|chunk rest IH]; cbn.
  - repeat split; try constructor. discriminate.
  - destruct (truthy_str (js_trim chunk)) eqn:Ht; cbn; [|exact IH].
    pose proof (send_chunks_later params replyTo rest) as Hl.
    split; [|split].
    + eapply Forall_impl; [|exact Hl]. cbn. tauto.
    + now intros s [= <-].
    + constructor.
      * cbn. split; [|reflexivity]. intros E. rewrite E in Ht. discriminate Ht.
      * eapply Forall_impl; [|exact Hl]. cbn. tauto.
Qed.

(** Within one reply payload the reply target is attached to the first
    message sent and to no later one, whatever the table converter and the
    chunker return; and a message sent without media never has empty
    content (chunks that trim to nothing are skipped). *)
Theorem reply_target_only_on_first_send
  (convertMarkdownTables : string -> string -> string)
  (chunkDiscordTextWithMode : string -> Z -> option Z -> string -> list string)
  (params : DeliveryParams) (payload : ReplyPayload) :
  let sends := deliver_payload convertMarkdownTables chunkDiscordTextWithMode
                               params payload in
  Forall (fun s => ws_replyTo s = None) (tl sends) /\
  (forall s, hd_error sends = Some s -> ws_replyTo s = reply_target params) /\
  Forall (fun s => ws_mediaUrl s = None -> ws_content s <> "") sends.
Proof.
  cbv zeta. unfold deliver_payload. cbv zeta.
  destruct (media_list payload) as [|firstMedia extras].
  - destruct (truthy_str (convertMarkdownTables _ _)); cbn [negb].
    + match goal with
      | |- context [send_chunks params ?r true ?c] =>
          destruct (send_chunks_first params r c) as (H1 & H2 & H3)
      end.
      split; [exact H1|]. split; [exact H2|].
      eapply Forall_impl; [|exact H3]. cbn. tauto.
    + cbn. repeat split; try constructor. discriminate.
  - destruct (truthy_str firstMedia); cbn [negb].
    + cbn [tl hd_error]. split; [|split].
      * apply Forall_map. apply Forall_forall. reflexivity.
      * now intros s [= <-].
      * constructor; [cbn; discriminate|].
        apply Forall_map. apply Forall_forall. cbn. discriminate.
    + cbn. repeat split; try constructor. discriminate.
Qed.

(** A payload with media sends one message per media URL, in list order: the
    first carries the converted text, the others empty content.  That holds
    when the first URL is non-empty; when it is empty the whole payload is
    dropped, its text and its other media with it. *)
Theorem media_payload_one_send_per_url
  (convertMarkdownTables : string -> string -> string)
  (chunkDiscordTextWithMode : string -> Z -> option Z -> string -> list string)
  (params : DeliveryParams) (payload : ReplyPayload)
  (firstMedia : string) (extras : list string)
  (Hmedia : media_list payload = firstMedia :: extras) :
  let sends := deliver_payload convertMarkdownTables chunkDiscordTextWithMode
                               params payload in
  (firstMedia = "" -> sends = []) /\
  (firstMedia <> "" ->
   map ws_mediaUrl sends = map Some (firstMedia :: extras) /\
   map ws_content sends =
     convertMarkdownTables (from_option "" (rp_text payload))
                           (from_option "code" (dp_tableMode params))
     :: map (fun _ => "") extras).
Proof.
  cbv zeta. unfold deliver_payload. cbv zeta. rewrite Hmedia. split.
  - intros ->. reflexivity.
  - intros Hne. unfold truthy_str. apply String.eqb_neq in Hne. rewrite Hne.
    cbn [negb map ws_mediaUrl ws_content]. rewrite !map_map. cbn. auto.
Qed.

(** ** Instances of the plugin and send-path properties *)

Lemma prune_again_later_witness :
  1000 <= 2000 /\
  pruneCache 2000 (pruneCache 1000 demo_saved_cache 500) 500
  = pruneCache 2000 demo_saved_cache 500.
Proof.
  assert (H : 1000 <= 2000) by lia.
  split; [exact H|].
  apply (prune_again_later 1000 2000 500 demo_saved_cache H).
Defined.

Lemma saved_only_when_allowed_witness :
  message_received demo_config default_plugin empty_fs 2000 demo_event
                   (Some "123456789012345678")
  = Saved "/srv/seven" demo_saved_cache /\
  "/srv/seven" <> "".
Proof.
  assert (H : message_received demo_config default_plugin empty_fs 2000
                demo_event (Some "123456789012345678")
              = Saved "/srv/seven" demo_saved_cache) by reflexivity.
  split; [exact H|].
  apply (saved_only_when_allowed demo_config default_plugin empty_fs 2000
           demo_event (Some "123456789012345678") "/srv/seven"
           demo_saved_cache H).
Defined.

Lemma saved_cache_is_capped_witness :
  message_received demo_config default_plugin empty_fs 2000 demo_event
                   (Some "123456789012345678")
  = Saved "/srv/seven" demo_saved_cache /\
  0 < maxMessages default_plugin /\
  Z.of_nat (List.length (messages demo_saved_cache)) <= maxMessages default_plugin * 3.
Proof.
  assert (H : message_received demo_config default_plugin empty_fs 2000
                demo_event (Some "123456789012345678")
              = Saved "/srv/seven" demo_saved_cache) by reflexivity.
  assert (Hpos : 0 < maxMessages default_plugin) by reflexivity.
  split; [exact H|]. split; [exact Hpos|].
  apply (saved_cache_is_capped demo_config default_plugin empty_fs 2000
           demo_event (Some "123456789012345678") "/srv/seven"
           demo_saved_cache H Hpos).
Defined.

Lemma zero_maxMessages_never_trims_witness :
  message_received demo_config zero_plugin demo_fs 2000 demo_event
                   (Some "123456789012345678")
  = Saved "/srv/seven" (mkCache [demo_message; demo_message] 2000) /\
  maxMessages zero_plugin = 0 /\
  exists m,
    messages (mkCache [demo_message; demo_message] 2000) =
      messages (pruneCache 2000 (loadCache demo_fs "/srv/seven" 2000)
                           (cacheMinutes zero_plugin * 60 * 1000)) ++ [m].
Proof.
  assert (H : message_received demo_config zero_plugin demo_fs 2000 demo_event
                (Some "123456789012345678")
              = Saved "/srv/seven" (mkCache [demo_message; demo_message] 2000))
    by reflexivity.
  split; [exact H|]. split; [reflexivity|].
  apply (zero_maxMessages_never_trims demo_config zero_plugin demo_fs 2000
           demo_event (Some "123456789012345678") "/srv/seven" _ H eq_refl).
Defined.

Lemma unknown_channel_bypasses_filters_witness :
  ev_content demo_event = Some "  hello there " /\
  js_trim "  hello there " <> "" /\
  String.prefix "/" (js_trim "  hello there ") = false /\
  default_workspace config_with_default_workspace = Some "/srv/shared" /\
  "/srv/shared" <> "" /\
  exists cache,
    message_received config_with_default_workspace only_general empty_fs 2000
                     demo_event None
    = Saved "/srv/shared" cache.
Proof.
  assert (H1 : js_trim "  hello there " <> "") by (vm_compute; discriminate).
  assert (H2 : "/srv/shared" <> "") by discriminate.
  split; [reflexivity|]. split; [exact H1|]. split; [reflexivity|].
  split; [reflexivity|]. split; [exact H2|].
  apply (unknown_channel_bypasses_filters config_with_default_workspace
           only_general empty_fs 2000 demo_event "  hello there " "/srv/shared"
           eq_refl H1 eq_refl eq_refl H2).
Defined.

Lemma candidates_are_recent_other_sessions_witness :
  In demo_message (recent_messages default_plugin 2000 (Some "agent:seven:main")
                                   demo_saved_cache) /\
  2000 - timestamp demo_message < cacheMinutes default_plugin * 60 * 1000.
Proof.
  assert (H : In demo_message
                (recent_messages default_plugin 2000 (Some "agent:seven:main")
                                 demo_saved_cache))
    by (left; reflexivity).
  split; [exact H|].
  apply (candidates_are_recent_other_sessions default_plugin 2000
           (Some "agent:seven:main") demo_saved_cache demo_message H).
Defined.

Lemma findAgentByChannel_sound_witness :
  findAgentByChannel demo_config (Some "123456789012345678")
  = Some ("seven", "/srv/seven") /\
  "/srv/seven" <> "".
Proof.
  split; [reflexivity|].
  apply (findAgentByChannel_sound demo_config (Some "123456789012345678")
           "seven" "/srv/seven" eq_refl).
Defined.

Lemma session_key_round_trip_witness :
  all_digits "123456789012345678" = true /\
  "123456789012345678" <> "" /\
  match_channel_digits "seven" = None /\
  match_channel_digits ("agent:" ++ "seven" ++ ":discord:channel:" ++ "123456789012345678")
  = Some "123456789012345678".
Proof.
  assert (Hc : "123456789012345678" <> "") by discriminate.
  split; [reflexivity|]. split; [exact Hc|]. split; [reflexivity|].
  apply (session_key_round_trip "seven" "123456789012345678" eq_refl Hc eq_refl).
Defined.

Lemma media_payload_one_send_per_url_witness :
  media_list demo_payload
  = "https://cdn.example/a.png" :: ["https://cdn.example/b.png"] /\
  "https://cdn.example/a.png" <> "" /\
  map ws_mediaUrl
      (deliver_payload (fun t _ => t) (fun t _ _ _ => [t]) demo_delivery demo_payload)
  = map Some ("https://cdn.example/a.png" :: ["https://cdn.example/b.png"]).
Proof.
  assert (Hne : "https://cdn.example/a.png" <> "") by discriminate.
  split; [reflexivity|]. split; [exact Hne|].
  apply (media_payload_one_send_per_url (fun t _ => t) (fun t _ _ _ => [t])
           demo_delivery demo_payload "https://cdn.example/a.png"
           ["https://cdn.example/b.png"] eq_refl).
  exact Hne.
Defined.
